(** * Verification of [parse.py] (spanish-words-cefr)

    A shallow embedding of the curriculum page parser and of the
    aggregation driver of [parse.py], followed by the properties of the
    vocabulary extraction that the specification states.

    - Python [str] values are lists of Unicode code points ([list N]).
    - Python [set] values are [gset]s, the [words_by_level] dict a [gmap];
      the iteration order of a set is that of [elements].
    - The BeautifulSoup document is the list of its tags in document
      order; a tag reference is its position in that list.
    - Global state, file objects and the console are threaded through a
      state monad with exceptions; a raised exception keeps the
      mutations performed before it, as in Python.
    - The loops of [parse] take fuel; [parse] gives them more than they
      can use (lemmas [sections_loop_walk] and [parse_total]).
    - The network is a function from URLs to pages: [requests.get] and
      [open] are taken to succeed. *)

From Stdlib Require Import ZArith NArith Ascii String List Lia DecimalString.
From stdpp Require Import base option list sorting gmap strings fin_maps fin_sets.

Local Open Scope N_scope.

(** ** Python strings *)

Abbreviation str := (list N).

(** Decoding of the UTF-8 bytes of a Rocq string literal into code
    points, so that Python literals can be written as they are. *)
Fixpoint utf8_decode (bs : list N) : str :=
  match bs with
  | [] => []
  | b :: r =>
      if b <? 128 then b :: utf8_decode r
      else if b <? 224 then
        match r with
        | c :: r1 => ((b mod 32) * 64 + c mod 64) :: utf8_decode r1
        | [] => [b]
        end
      else if b <? 240 then
        match r with
        | c :: d :: r2 =>
            ((b mod 16) * 4096 + (c mod 64) * 64 + d mod 64) :: utf8_decode r2
        | _ => [b]
        end
      else
        match r with
        | c :: d :: e :: r3 =>
            ((b mod 8) * 262144 + (c mod 64) * 4096 + (d mod 64) * 64 + e mod 64)
              :: utf8_decode r3
        | _ => [b]
        end
  end.

Definition py (s : string) : str :=
  utf8_decode (map N_of_ascii (list_ascii_of_string s)).

#[global] Arguments py : simpl never.

Definition SPACE : N := 32.
Definition NEWLINE : N := 10.
Definition QUOTE : N := 34.

(** The character class [[a-zA-ZáéíóúÁÉÍÓÚñÑ ]] of the first [re.sub]. *)
Definition spanish_or_space (c : N) : bool :=
  ((97 <=? c) && (c <=? 122)) || ((65 <=? c) && (c <=? 90))
  || bool_decide (c ∈ [225; 233; 237; 243; 250])
  || bool_decide (c ∈ [193; 201; 205; 211; 218])
  || (c =? 241) || (c =? 209) || (c =? SPACE).

(** [re.sub(r'[^a-zA-ZáéíóúÁÉÍÓÚñÑ ]', ' ', s)] *)
Definition sub_non_spanish (s : str) : str :=
  map (fun c => if spanish_or_space c then c else SPACE) s.

(** [re.sub(r' +', ' ', s)]: every maximal run of spaces becomes one
    space, that is, a space followed by a space is dropped. *)
Fixpoint sub_spaces (s : str) : str :=
  match s with
  | [] => []
  | c :: r =>
      match r with
      | d :: _ =>
          if (c =? SPACE) && (d =? SPACE) then sub_spaces r
          else c :: sub_spaces r
      | [] => [c]
      end
  end.

(** The characters removed by [str.strip()] (those of [str.isspace]). *)
Definition isspace (c : N) : bool :=
  ((9 <=? c) && (c <=? 13)) || ((28 <=? c) && (c <=? 32))
  || (c =? 133) || (c =? 160) || (c =? 5760)
  || ((8192 <=? c) && (c <=? 8202))
  || (c =? 8232) || (c =? 8233) || (c =? 8239) || (c =? 8287) || (c =? 12288).

Fixpoint lstrip (s : str) : str :=
  match s with
  | [] => []
  | c :: r => if isspace c then lstrip r else s
  end.

Definition strip (s : str) : str :=
  reverse (lstrip (reverse (lstrip s))).

(** [s.split(sep)] with an explicit one-character separator. *)
Fixpoint split (sep : N) (s : str) : list str :=
  match s with
  | [] => [[]]
  | c :: r =>
      if c =? sep then [] :: split sep r
      else match split sep r with
           | w :: ws => (c :: w) :: ws
           | [] => [[c]]
           end
  end.

(** [s.replace(a, b)] for one-character [a] and [b]. *)
Definition replace (a b : N) (s : str) : str :=
  map (fun c => if c =? a then b else c) s.

(** [sep.join(ws)] *)
Fixpoint join (sep : str) (ws : list str) : str :=
  match ws with
  | [] => []
  | [w] => w
  | w :: r => w ++ sep ++ join sep r
  end.

(** [str.lower()], on the code points below 256: the ASCII capitals and
    the Latin-1 capitals U+00C0..U+00DE (without the sign U+00D7) move
    by 32.  [lower] is only ever applied to tokens of a cleaned cell,
    whose characters all belong to the class above (lemma
    [tokens_letters]). *)
Definition lower_char (c : N) : N :=
  if ((65 <=? c) && (c <=? 90))
     || ((192 <=? c) && (c <=? 222) && negb (c =? 215))
  then c + 32 else c.

Definition lower (s : str) : str := map lower_char s.

(** Lines 63-66: the cleaned text of a cell. *)
Definition clean (cell_text : str) : str :=
  strip (sub_spaces (sub_non_spanish cell_text)).

(** Decimal rendering of an integer, as [str(n)] and the [d] format. *)
Definition str_of_Z (z : Z) : str :=
  map N_of_ascii (list_ascii_of_string (NilZero.string_of_int (Z.to_int z))).

(** The format specification [ >4d]: right-aligned in width 4, padded
    with spaces. *)
Definition rjust4 (s : str) : str :=
  repeat SPACE (4 - length s)%nat ++ s.


(** ** The parsed document

    [BeautifulSoup(r.text, 'html.parser')] is modelled by the list of
    the tags of the page in document order.  A reference to a tag is its
    position in this list.  [parent] is the position of the enclosing tag
    ([None] for a child of the document itself), [text] the concatenated
    strings below the tag, [sourceline] the line on which it was opened. *)

Record tag := Tag {
  name : string;
  sourceline : Z;
  parent : option nat;
  text : str
}.

Abbreviation soup := (list tag).

Definition text_of (s : soup) (n : nat) : str :=
  default [] (text <$> s !! n).

Definition line_of (s : soup) (n : nat) : Z :=
  default 0%Z (sourceline <$> s !! n).

Definition named (s : soup) (nm : string) (j : nat) : Prop :=
  name <$> s !! j = Some nm.

Definition sibling_named (s : soup) (n : nat) (nm : string) (j : nat) : Prop :=
  named s nm j ∧ parent <$> s !! j = parent <$> s !! n.

#[global] Instance named_dec s nm j : Decision (named s nm j).
Proof. unfold named. apply _. Defined.

#[global] Instance sibling_named_dec s n nm j : Decision (sibling_named s n nm j).
Proof. unfold sibling_named. apply _. Defined.

(** The positions strictly after [n]. *)
Definition after (s : soup) (n : nat) : list nat :=
  seq (S n) (length s - S n).

(** [soup.find_all(nm)], [n.find_all_next(nm)], [n.find_next_siblings(nm)] *)
Definition find_all (s : soup) (nm : string) : list nat :=
  filter (named s nm) (seq 0 (length s)).

Definition find_all_next (s : soup) (n : nat) (nm : string) : list nat :=
  filter (named s nm) (after s n).

Definition find_next_siblings (s : soup) (n : nat) (nm : string) : list nat :=
  filter (sibling_named s n nm) (after s n).

(** [soup.find(nm)], [n.find_next(nm)], [n.find_next_sibling(nm)]: the
    first result of the searches above, or [None]. *)
Definition find (s : soup) (nm : string) : option nat :=
  head (find_all s nm).

Definition find_next (s : soup) (n : nat) (nm : string) : option nat :=
  head (find_all_next s n nm).

Definition find_next_sibling (s : soup) (n : nat) (nm : string) : option nat :=
  head (find_next_siblings s n nm).

(** ** The state of the process *)

(** A file object: the strings written to it so far, and whether
    [close()] was called on it. *)
Record file := File {
  fname : str;
  written : list str;
  closed : bool
}.

Record world := World {
  all_words : gset str;                    (* line 4 *)
  words_by_level : gmap str (gset str);    (* lines 6-8 *)
  files : list file;                       (* every file object opened *)
  stdout : list str                        (* the lines printed *)
}.

Definition all_levels : list str :=
  [py "A1"; py "A2"; py "B1"; py "B2"; py "C1"; py "C2"].

(** Lines 4-8. *)
Definition init_world : world :=
  {| all_words := ∅;
     words_by_level :=
       foldl (fun d level => <[level := ∅]> d) ∅ all_levels;
     files := [];
     stdout := [] |}.

(** ** Computations: state and exceptions *)

Inductive exn := AttributeError | IndexError | KeyError.

Inductive outcome (A : Type) :=
| Returned (a : A)
| Raised (e : exn)
| OutOfFuel.
Arguments Returned {A} a.
Arguments Raised {A} e.
Arguments OutOfFuel {A}.

Definition M (A : Type) : Type := world -> outcome A * world.

Definition ret {A} (a : A) : M A := fun w => (Returned a, w).

Definition bind {A B} (m : M A) (k : A -> M B) : M B :=
  fun w =>
    match m w with
    | (Returned a, w1) => k a w1
    | (Raised e, w1) => (Raised e, w1)
    | (OutOfFuel, w1) => (OutOfFuel, w1)
    end.

Definition raise {A} (e : exn) : M A := fun w => (Raised e, w).

Definition out_of_fuel {A} : M A := fun w => (OutOfFuel, w).

Definition gets {A} (f : world -> A) : M A := fun w => (Returned (f w), w).

Definition modify (f : world -> world) : M unit := fun w => (Returned tt, f w).

Declare Scope py_scope.
Delimit Scope py_scope with py.
Notation "x <- m ;; k" := (bind m (fun x => k))
  (at level 100, m at next level, right associativity) : py_scope.
Notation "m ;; k" := (bind m (fun _ => k))
  (at level 100, right associativity) : py_scope.
Local Open Scope py_scope.

(** [l[i]] *)
Definition index {A} (l : list A) (i : nat) : M A :=
  match l !! i with
  | Some a => ret a
  | None => raise IndexError
  end.

(** [for x in l: body(x)] *)
Fixpoint for_each {A} (l : list A) (body : A -> M unit) : M unit :=
  match l with
  | [] => ret tt
  | x :: r => body x ;; for_each r body
  end.

(** ** Files and console *)

(** [open(fname, 'w', encoding='utf-8')]: a new file object. *)
Definition open (fname : str) : M nat :=
  fun w =>
    (Returned (length (files w)),
     {| all_words := all_words w; words_by_level := words_by_level w;
        files := files w ++ [File fname [] false]; stdout := stdout w |}).

Definition set_files (f : list file -> list file) (w : world) : world :=
  {| all_words := all_words w; words_by_level := words_by_level w;
     files := f (files w); stdout := stdout w |}.

(** [output.write(data)] *)
Definition write (output : nat) (data : str) : M unit :=
  modify (set_files (alter
    (fun f => File (fname f) (written f ++ [data]) (closed f)) output)).

(** [output.close()] *)
Definition close (output : nat) : M unit :=
  modify (set_files (alter
    (fun f => File (fname f) (written f) true) output)).

(** [print(line)] *)
Definition print (line : str) : M unit :=
  modify (fun w =>
    {| all_words := all_words w; words_by_level := words_by_level w;
       files := files w; stdout := stdout w ++ [line] |}).

(** The text that a file object holds. *)
Definition content (f : file) : str := concat (written f).

(** ** The curriculum page parser, [parse] (lines 11-88) *)

(** The mutable locals of one call of [parse] (lines 45-46). *)
Record frame := Frame {
  counts : list Z;
  words_in_page_by_level : list (gset str)
}.

(** Lines 73-77: the loop over the words of a cell, on the pair of
    [set_words] and [all_words]. *)
Definition keep_word (acc : gset str * gset str) (word : str)
  : gset str * gset str :=
  let '(set_words, all) := acc in
  if bool_decide (word = lower word) && bool_decide (word ∉ all)
  then ({[word]} ∪ set_words, {[word]} ∪ all)
  else (set_words, all).

Definition keep_words (list_words : list str) (all : gset str)
  : gset str * gset str :=
  foldl keep_word (∅, all) list_words.

Definition set_all_words (all : gset str) (w : world) : world :=
  {| all_words := all; words_by_level := words_by_level w;
     files := files w; stdout := stdout w |}.

(** Line 81: the row written for a word.  The word itself does not
    occur in it. *)
Definition row_line (section subsection : str) : str :=
  [QUOTE] ++ section ++ [QUOTE] ++ py "," ++ [QUOTE] ++ subsection
  ++ [QUOTE] ++ py "," ++ [QUOTE] ++ py "word" ++ [QUOTE] ++ [NEWLINE].

(** Line 43. *)
Definition header_line : str :=
  [QUOTE] ++ py "Section" ++ [QUOTE] ++ py "," ++ [QUOTE] ++ py "Subsection"
  ++ [QUOTE] ++ py "," ++ [QUOTE] ++ py "Word" ++ [QUOTE] ++ [NEWLINE].

(** Lines 63-83: what is done with the text of the cell of level [i]. *)
Definition process_cell (outputs : list nat) (section subsection : str)
    (i : nat) (text : str) (fr : frame) : M frame :=
  let cell_text := clean text in
  if bool_decide (cell_text = []) then ret fr
  else
    let list_words := split SPACE cell_text in
    all <- gets all_words ;;
    let kept := keep_words list_words all in
    let set_words := kept.1 in
    modify (set_all_words kept.2) ;;
    for_each (elements set_words) (fun word =>
      output <- index outputs i ;;
      write output (row_line section subsection)) ;;
    c <- index (counts fr) i ;;
    let counts1 := <[i := (c + Z.of_nat (size set_words))%Z]> (counts fr) in
    ws <- index (words_in_page_by_level fr) i ;;
    ret (Frame counts1 (<[i := ws ∪ set_words]> (words_in_page_by_level fr))).

(** Lines 60-61 and on: one turn of [for i in range(2)].  [cell] moves
    to the next [td]; without one, [cell.text] raises. *)
Definition cell_turn (s : soup) (outputs : list nat) (section subsection : str)
    (i : nat) (cell : nat) (fr : frame) : M (nat * frame) :=
  match find_next s cell "td" with
  | None => raise AttributeError
  | Some cell1 =>
      fr1 <- process_cell outputs section subsection i (text_of s cell1) fr ;;
      ret (cell1, fr1)
  end.

(** Lines 58-83: the body of the loop over rows. *)
Definition row_body (s : soup) (outputs : list nat) (section subsection : str)
    (row : nat) (fr : frame) : M frame :=
  r0 <- cell_turn s outputs section subsection 0 row fr ;;
  r1 <- cell_turn s outputs section subsection 1 r0.1 r0.2 ;;
  ret r1.2.

(** The guard [y is None or x.sourceline < y.sourceline] of the loops. *)
Definition before (s : soup) (x : nat) (y : option nat) : bool :=
  match y with
  | None => true
  | Some n => (line_of s x <? line_of s n)%Z
  end.

(** Lines 57-84: [while row is not None and (...)]. *)
Fixpoint rows_loop (fuel : nat) (s : soup) (outputs : list nat)
    (section subsection : str) (row h3 : option nat) (fr : frame) : M frame :=
  match row with
  | None => ret fr
  | Some r =>
      if before s r h3 then
        match fuel with
        | O => out_of_fuel
        | S fuel1 =>
            fr1 <- row_body s outputs section subsection r fr ;;
            rows_loop fuel1 s outputs section subsection
              (find_next_sibling s r "tr") h3 fr1
        end
      else ret fr
  end.

(** Lines 52-84: [while h3 is not None and (...)]. *)
Fixpoint subsections_loop (fuel : nat) (s : soup) (outputs : list nat)
    (section : str) (h3 h2 : option nat) (fr : frame) : M frame :=
  match h3 with
  | None => ret fr
  | Some n3 =>
      if before s n3 h2 then
        match fuel with
        | O => out_of_fuel
        | S fuel1 =>
            let subsection := strip (text_of s n3) in
            let row := find_next s n3 "tr" in
            let h3' := find_next_sibling s n3 "h3" in
            fr1 <- rows_loop (S (length s)) s outputs section subsection
                     row h3' fr ;;
            subsections_loop fuel1 s outputs section h3' h2 fr1
        end
      else ret fr
  end.

(** Lines 47-84: [while h2 is not None]. *)
Fixpoint sections_loop (fuel : nat) (s : soup) (outputs : list nat)
    (h2 : option nat) (fr : frame) : M frame :=
  match h2 with
  | None => ret fr
  | Some n2 =>
      match fuel with
      | O => out_of_fuel
      | S fuel1 =>
          let section := strip (text_of s n2) in
          let h3 := find_next s n2 "h3" in
          let h2' := find_next_sibling s n2 "h2" in
          fr1 <- subsections_loop (S (length s)) s outputs section h3 h2' fr ;;
          sections_loop fuel1 s outputs h2' fr1
      end
  end.

(** Line 40: [f'{level}_{page_number}_{title_underbar}.csv'] *)
Definition output_name (page_number : Z) (title_underbar level : str) : str :=
  level ++ py "_" ++ str_of_Z page_number ++ py "_" ++ title_underbar
  ++ py ".csv".

(** Lines 40-41: the list comprehension opening one file per level. *)
Fixpoint open_outputs (page_number : Z) (title_underbar : str)
    (levels : list str) : M (list nat) :=
  match levels with
  | [] => ret []
  | level :: r =>
      output <- open (output_name page_number title_underbar level) ;;
      outputs <- open_outputs page_number title_underbar r ;;
      ret (output :: outputs)
  end.

(** Line 37: [h1.text.strip().split('.')[0]] *)
Definition title_of (s : soup) (h1 : nat) : str :=
  hd [] (split 46 (strip (text_of s h1))).

(** Lines 85-88: the three printed lines and the returned value. *)
Definition report (page_number : Z) (title : str) (levels : list str)
    (fr : frame) : M (list (gset str)) :=
  print (py "Section " ++ str_of_Z page_number ++ py ": " ++ title) ;;
  l0 <- index levels 0 ;;
  c0 <- index (counts fr) 0 ;;
  print (py "Level " ++ l0 ++ py ": " ++ rjust4 (str_of_Z c0) ++ py " words") ;;
  l1 <- index levels 1 ;;
  c1 <- index (counts fr) 1 ;;
  print (py "Level " ++ l1 ++ py ": " ++ rjust4 (str_of_Z c1) ++ py " words") ;;
  ret (words_in_page_by_level fr).

(** [parse], on the document that [requests.get(url)] and
    [BeautifulSoup] produce for [url]. *)
Definition parse (s : soup) (page_number : Z) (levels : list str)
  : M (list (gset str)) :=
  match find s "h1" with
  | None => raise AttributeError
  | Some h1 =>
      let title := title_of s h1 in
      let title_underbar := replace SPACE 95 title in
      outputs <- open_outputs page_number title_underbar levels ;;
      for_each outputs (fun output => write output header_line) ;;
      let h2 := find s "h2" in
      fr <- sections_loop (S (length s)) s outputs h2 (Frame [0%Z; 0%Z] [∅; ∅]) ;;
      report page_number title levels fr
  end.

(** ** The aggregation driver (lines 91-114) *)

Definition set_words_by_level (d : gmap str (gset str)) (w : world) : world :=
  {| all_words := all_words w; words_by_level := d;
     files := files w; stdout := stdout w |}.

(** Line 107: [words_by_level[levels_in_page[i]].update(result[i])] *)
Definition merge_level (levels_in_page : list str) (result : list (gset str))
    (i : nat) : M unit :=
  level <- index levels_in_page i ;;
  d <- gets words_by_level ;;
  match d !! level with
  | None => raise KeyError
  | Some ws =>
      r <- index result i ;;
      modify (set_words_by_level (<[level := ws ∪ r]> d))
  end.

(** A document of the list [docs]: page number, levels, and the page
    behind its URL. *)
Record doc := Doc {
  section_number : Z;
  levels_in_page : list str;
  page : soup
}.

(** Lines 101-107. *)
Fixpoint docs_loop (docs : list doc) : M unit :=
  match docs with
  | [] => ret tt
  | d :: r =>
      result <- parse (page d) (section_number d) (levels_in_page d) ;;
      merge_level (levels_in_page d) result 0 ;;
      merge_level (levels_in_page d) result 1 ;;
      docs_loop r
  end.

Definition level_file_name (level : str) : str := level ++ py "_all_raw.csv".

(** Lines 111-114. *)
Definition write_level (level : str) : M unit :=
  output <- open (level_file_name level) ;;
  d <- gets words_by_level ;;
  match d !! level with
  | None => raise KeyError
  | Some ws =>
      write output (join [NEWLINE] (elements ws)) ;;
      close output
  end.

(** The six URLs of lines 92-99. *)
Definition base_url : str :=
  py "https://cvc.cervantes.es/ensenanza/biblioteca_ele/plan_curricular/niveles/".

Definition docs (web : str -> soup) : list doc :=
  [ Doc 8 [py "A1"; py "A2"]
      (web (base_url ++ py "08_nociones_generales_inventario_a1-a2.htm"));
    Doc 8 [py "B1"; py "B2"]
      (web (base_url ++ py "08_nociones_generales_inventario_b1-b2.htm"));
    Doc 8 [py "C1"; py "C2"]
      (web (base_url ++ py "08_nociones_generales_inventario_c1-c2.htm"));
    Doc 9 [py "A1"; py "A2"]
      (web (base_url ++ py "09_nociones_especificas_inventario_a1-a2.htm"));
    Doc 9 [py "B1"; py "B2"]
      (web (base_url ++ py "09_nociones_especificas_inventario_b1-b2.htm"));
    Doc 9 [py "C1"; py "C2"]
      (web (base_url ++ py "09_nociones_especificas_inventario_c1-c2.htm")) ].

(** Line 109: [f"Total: {len(all_words)} words"] *)
Definition total_line (n : Z) : str :=
  py "Total: " ++ str_of_Z n ++ py " words".

(** Lines 101-114, for any list of documents. *)
Definition run (ds : list doc) : M unit :=
  docs_loop ds ;;
  all <- gets all_words ;;
  print (total_line (Z.of_nat (size all))) ;;
  for_each all_levels write_level.

(** The whole script: [web] gives the page served for each URL. *)
Definition main (web : str -> soup) : outcome unit * world :=
  run (docs web) init_world.

(** ** The walk of a page, independently of the state

    The three nested loops of [parse] visit cells in an order that only
    depends on the page.  [walk] lists these visits; [parse] is shown
    below to run over exactly this list (lemma [sections_loop_walk]). *)

Fixpoint take_while {A} (p : A -> bool) (l : list A) : list A :=
  match l with
  | [] => []
  | x :: r => if p x then x :: take_while p r else []
  end.

(** A cursor and the tags reached from it by repeated
    [find_next_sibling(nm)]. *)
Definition chain (s : soup) (nm : string) (cur : option nat) : list nat :=
  match cur with
  | None => []
  | Some n => n :: find_next_siblings s n nm
  end.

(** One turn of [for i in range(2)]: the cell of level [i] with its
    text, or the failure of [cell.text] on a missing [td]. *)
Inductive step :=
| Cell (section subsection : str) (i : nat) (text : str)
| NoCell.

Definition do_step (outputs : list nat) (st : step) (fr : frame) : M frame :=
  match st with
  | Cell section subsection i text =>
      process_cell outputs section subsection i text fr
  | NoCell => raise AttributeError
  end.

Fixpoint run_steps (outputs : list nat) (l : list step) (fr : frame) : M frame :=
  match l with
  | [] => ret fr
  | st :: r => fr1 <- do_step outputs st fr ;; run_steps outputs r fr1
  end.

Definition row_steps (s : soup) (section subsection : str) (row : nat)
  : list step :=
  match find_next s row "td" with
  | None => [NoCell]
  | Some c0 =>
      Cell section subsection 0 (text_of s c0) ::
      match find_next s c0 "td" with
      | None => [NoCell]
      | Some c1 => [Cell section subsection 1 (text_of s c1)]
      end
  end.

(** The rows visited for the subsection heading [n3]. *)
Definition rows_of (s : soup) (n3 : nat) : list nat :=
  take_while (fun r => before s r (find_next_sibling s n3 "h3"))
    (chain s "tr" (find_next s n3 "tr")).

Definition subsection_steps (s : soup) (section : str) (n3 : nat) : list step :=
  flat_map (row_steps s section (strip (text_of s n3))) (rows_of s n3).

(** The subsection headings attributed to the section heading [n2]. *)
Definition subsections_of (s : soup) (n2 : nat) : list nat :=
  take_while (fun n3 => before s n3 (find_next_sibling s n2 "h2"))
    (chain s "h3" (find_next s n2 "h3")).

Definition section_steps (s : soup) (n2 : nat) : list step :=
  flat_map (subsection_steps s (strip (text_of s n2))) (subsections_of s n2).

(** The section headings that [parse] processes. *)
Definition sections (s : soup) : list nat := chain s "h2" (find s "h2").

Definition walk (s : soup) : list step := flat_map (section_steps s) (sections s).

(** ** Auxiliary notions for the statements *)

Definition letter (c : N) : Prop := spanish_or_space c = true ∧ c ≠ SPACE.

Fixpoint nodouble (s : str) : bool :=
  match s with
  | [] => true
  | c :: r =>
      match r with
      | d :: _ => negb ((c =? SPACE) && (d =? SPACE)) && nodouble r
      | [] => true
      end
  end.

(** What [n] calls of [write(data)] do to a file object. *)
Definition append_rows (n : nat) (data : str) (f : file) : file :=
  File (fname f) (written f ++ replicate n data) (closed f).

(** The file objects that [parse] creates (lines 40-43): one per level,
    holding the header row. *)
Definition new_outputs (page_number : Z) (title_underbar : str)
    (levels : list str) : list file :=
  map (fun level =>
         File (output_name page_number title_underbar level) [header_line] false)
      levels.

(** The words of a cell: none when the cell is skipped (line 67). *)
Definition cell_tokens (text : str) : list str :=
  if bool_decide (clean text = []) then [] else split SPACE (clean text).

Definition step_tokens (st : step) : list str :=
  match st with
  | Cell _ _ _ text => cell_tokens text
  | NoCell => []
  end.

(** The words met on a page, in the order of the walk. *)
Definition page_tokens (s : soup) : list str := flat_map step_tokens (walk s).

(** The distinct words of a list that are lowercase as written. *)
Definition qualifying (ws : list str) : gset str :=
  list_to_set (filter (fun word => word = lower word) ws).

(** The words that a cell adds to a vocabulary [all]. *)
Definition new_words (text : str) (all : gset str) : gset str :=
  qualifying (cell_tokens text) ∖ all.

(** [f'] is the file object [f] after further rows were written to it,
    each of them satisfying [C]; it is as open or closed as [f] was. *)
Definition grown (C : str -> Prop) (f f' : file) : Prop :=
  fname f' = fname f ∧ closed f' = closed f
  ∧ ∃ rows, written f' = written f ++ rows ∧ Forall C rows.

(** The rows written for the cells of a list of steps. *)
Definition row_of (l : list step) (data : str) : Prop :=
  ∃ section subsection i text,
    Cell section subsection i text ∈ l ∧ data = row_line section subsection.

(** The relation between the locals of [parse] and the vocabulary,
    [all0] being the vocabulary when [parse] was called. *)
Definition page_inv (all0 : gset str) (w : world) (fr : frame) : Prop :=
  ∃ A B,
    words_in_page_by_level fr = [A; B]
    ∧ counts fr = [Z.of_nat (size A); Z.of_nat (size B)]
    ∧ A ## B ∧ (A ∪ B) ## all0
    ∧ all_words w = all0 ∪ A ∪ B.

Definition cell_step (st : step) : Prop :=
  match st with
  | Cell _ _ i _ => (i < 2)%nat
  | NoCell => False
  end.

(** The console after further lines were printed. *)
Definition add_lines (lines : list str) (w : world) : world :=
  {| all_words := all_words w; words_by_level := words_by_level w;
     files := files w; stdout := stdout w ++ lines |}.

(** The lines that [parse] prints (lines 85-87). *)
Definition title_line (page_number : Z) (title : str) : str :=
  py "Section " ++ str_of_Z page_number ++ py ": " ++ title.

Definition level_line (level : str) (count : Z) : str :=
  py "Level " ++ level ++ py ": " ++ rjust4 (str_of_Z count) ++ py " words".

(** ** Notions for the aggregation driver *)

(** Lines 105-107 for one document, with the value that [parse]
    returned. *)
Definition doc_body (d : doc) : M (list (gset str)) :=
  result <- parse (page d) (section_number d) (levels_in_page d) ;;
  merge_level (levels_in_page d) result 0 ;;
  merge_level (levels_in_page d) result 1 ;;
  ret result.

(** The documents processed by a run from [w], each with the value
    that [parse] returned for it. *)
Fixpoint parse_results (ds : list doc) (w : world)
  : list (doc * list (gset str)) :=
  match ds with
  | [] => []
  | d :: r =>
      match doc_body d w with
      | (Returned result, w1) => (d, result) :: parse_results r w1
      | _ => []
      end
  end.

(** The words that one returned value attributes to [level]: its
    [i]-th set when [level] is the [i]-th level of the document. *)
Definition attributed (level : str) (dr : doc * list (gset str)) : gset str :=
  ⋃ (map (fun i => if bool_decide (levels_in_page dr.1 !! i = Some level)
                   then default ∅ (dr.2 !! i) else ∅)
         [0%nat; 1%nat]).

Definition level_union (level : str) (rs : list (doc * list (gset str)))
  : gset str :=
  ⋃ (map (attributed level) rs).

(** The consolidated file of a level (lines 112-114). *)
Definition level_file (d : gmap str (gset str)) (level : str) : file :=
  File (level_file_name level)
       [join [NEWLINE] (elements (default ∅ (d !! level)))] true.

(** The level sets are pairwise disjoint and within the vocabulary. *)
Definition levels_disjoint (d : gmap str (gset str)) : Prop :=
  ∀ L1 L2 S1 S2, L1 ≠ L2 -> d !! L1 = Some S1 -> d !! L2 = Some S2 -> S1 ## S2.

Definition levels_within (d : gmap str (gset str)) (all : gset str) : Prop :=
  ∀ L S, d !! L = Some S -> S ⊆ all.

Definition levels_cover (d : gmap str (gset str)) (all : gset str) : Prop :=
  ∀ x, x ∈ all -> ∃ L S, d !! L = Some S ∧ x ∈ S.

Definition level_inv (w : world) : Prop :=
  levels_disjoint (words_by_level w)
  ∧ levels_within (words_by_level w) (all_words w).

(** The sum of the sizes of the six level sets. *)
Definition sum_sizes (d : gmap str (gset str)) : nat :=
  sum_list (map (fun level => size (default ∅ (d !! level))) all_levels).

(** A row that carries the stripped texts of a section heading and of a
    subsection heading attributed to it. *)
Definition heading_row (s : soup) (data : str) : Prop :=
  ∃ n2 n3,
    n2 ∈ sections s ∧ n3 ∈ subsections_of s n2
    ∧ data = row_line (strip (text_of s n2)) (strip (text_of s n3)).

(** A file of [parse]: its name, the header row, then rows of headings. *)
Definition output_of (s : soup) (page_number : Z) (title_underbar : str)
    (level : str) (f : file) : Prop :=
  fname f = output_name page_number title_underbar level
  ∧ ∃ rows, written f = header_line :: rows ∧ Forall (heading_row s) rows.

(** ** Notions for the attribution of subsections *)

(** The source lines do not decrease in document order. *)
Definition lines_ordered (s : soup) : Prop :=
  StronglySorted Z.le (sourceline <$> s).

(** All the tags called [nm] have the same parent. *)
Definition siblings (s : soup) (nm : string) : Prop :=
  Forall (fun t => Forall (fun u =>
    name t = nm -> name u = nm -> parent t = parent u) s) s.

#[global] Instance lines_ordered_dec s : Decision (lines_ordered s).
Proof. unfold lines_ordered. apply _. Defined.

#[global] Instance siblings_dec s nm : Decision (siblings s nm).
Proof. unfold siblings. apply _. Defined.


(** ** Example pages *)

(** A row whose only cell holds no letter:
<<
<tr><td>123, 45!</td></tr>
>> *)
Definition page_digits : soup :=
  [ Tag "tr" 1 None (py "123, 45!"); Tag "td" 1 (Some 0%nat) (py "123, 45!") ].

(** A page whose subsection headings are siblings of the section
    headings, as on the pages of the curriculum:
<<
<h1>Nociones generales. Inventario A1-A2</h1>
<h2> Tiempo </h2>
<h3>Momentos</h3>
<table><tr><td>ahora hoy</td><td>Luego, tarde</td></tr></table>
<h2>Espacio</h2>
<h3>Lugares</h3>
<table><tr><td>aquí</td><td>allí hoy</td></tr></table>
>> *)
Definition page_flat : soup :=
  [ Tag "h1" 1 None (py "Nociones generales. Inventario A1-A2");
    Tag "h2" 2 None (py " Tiempo ");
    Tag "h3" 3 None (py "Momentos");
    Tag "table" 4 None (py "ahora hoyLuego, tarde");
    Tag "tr" 4 (Some 3%nat) (py "ahora hoyLuego, tarde");
    Tag "td" 4 (Some 4%nat) (py "ahora hoy");
    Tag "td" 4 (Some 4%nat) (py "Luego, tarde");
    Tag "h2" 5 None (py "Espacio");
    Tag "h3" 6 None (py "Lugares");
    Tag "table" 7 None (py "aquíallí hoy");
    Tag "tr" 7 (Some 9%nat) (py "aquíallí hoy");
    Tag "td" 7 (Some 10%nat) (py "aquí");
    Tag "td" 7 (Some 10%nat) (py "allí hoy") ].


(** A page with a row that has a single cell:
<<
<h1>Nociones generales. Inventario A1-A2</h1>
<h2>Tiempo</h2>
<h3>Momentos</h3>
<table><tr><td>ahora</td></tr></table>
>> *)
Definition page_short_row : soup :=
  [ Tag "h1" 1 None (py "Nociones generales. Inventario A1-A2");
    Tag "h2" 2 None (py "Tiempo");
    Tag "h3" 3 None (py "Momentos");
    Tag "table" 4 None (py "ahora");
    Tag "tr" 4 (Some 3%nat) (py "ahora");
    Tag "td" 4 (Some 4%nat) (py "ahora") ].

(** A document whose levels are not among the six. *)
Definition doc_unknown_level : doc :=
  Doc 8 [py "D1"; py "D2"] page_flat.

(** ** Further notions *)

(** The lowercase letters of the class of line 64. *)
Definition lowercase_letter (c : N) : Prop :=
  (97 <= c <= 122) ∨ c ∈ [225; 233; 237; 243; 250; 241].

(** A non-empty word of lowercase letters. *)
Definition lowercase_word (x : str) : Prop :=
  x ≠ [] ∧ Forall lowercase_letter x.

(** The number of occurrences of a character. *)
Definition count_char (c : N) (s : str) : nat :=
  length (filter (fun d => d = c) s).


(** The files of the page, after the file objects [fs0] that existed
    before: the one of each of the two levels holds the header row and
    one row per word of the set of the level; the files of further
    levels hold the header row. *)
Definition rows_inv (fs0 : list file) (w : world) (fr : frame) : Prop :=
  ∃ A B f0 f1 more,
    words_in_page_by_level fr = [A; B]
    ∧ files w = fs0 ++ f0 :: f1 :: more
    ∧ length (written f0) = S (size A)
    ∧ length (written f1) = S (size B)
    ∧ Forall (fun f => written f = [header_line]) more.


(** The three lines printed for a document, given the value that
    [parse] returned for it. *)
Definition doc_lines (dr : doc * list (gset str)) : list str :=
  match find (page dr.1) "h1", levels_in_page dr.1, dr.2 with
  | Some h1, l0 :: l1 :: _, [A; B] =>
      [title_line (section_number dr.1) (title_of (page dr.1) h1);
       level_line l0 (Z.of_nat (size A)); level_line l1 (Z.of_nat (size B))]
  | _, _, _ => []
  end.

(** * Properties *)

(** ** The string operations on examples *)

Example clean_casa :
  clean (py "Casa, Árbol. Perro!!") = py "Casa Árbol Perro".
Proof. vm_compute. reflexivity. Qed.

Example split_casa :
  split SPACE (py "Casa Árbol Perro") = [py "Casa"; py "Árbol"; py "Perro"].
Proof. vm_compute. reflexivity. Qed.

Example str_of_Z_0 : str_of_Z 0 = py "0". Proof. reflexivity. Qed.
Example str_of_Z_neg : str_of_Z (-12) = py "-12". Proof. reflexivity. Qed.
Example rjust4_17 : rjust4 (str_of_Z 17) = py "  17". Proof. reflexivity. Qed.
Example rjust4_big : rjust4 (str_of_Z 12345) = py "12345". Proof. reflexivity. Qed.

(** ** Cleaning a cell: the tokens are non-empty words of letters *)

Lemma sub_non_spanish_class text :
  Forall (fun c => spanish_or_space c = true) (sub_non_spanish text).
Proof.
  unfold sub_non_spanish. apply Forall_forall. intros c Hc.
  apply list_elem_of_fmap in Hc as (x & -> & _).
  destruct (spanish_or_space x) eqn:E; [exact E | reflexivity].
Qed.

Lemma sub_spaces_cons2 c d r :
  sub_spaces (c :: d :: r) =
  if (c =? SPACE) && (d =? SPACE) then sub_spaces (d :: r)
  else c :: sub_spaces (d :: r).
Proof. reflexivity. Qed.

Lemma sub_spaces_head s : head (sub_spaces s) = head s.
Proof.
  induction s as [|c r IH]; [reflexivity|].
  destruct r as [|d r']; [reflexivity|].
  rewrite sub_spaces_cons2. destruct ((c =? SPACE) && (d =? SPACE)) eqn:E.
  - rewrite IH. cbn. apply andb_true_iff in E as [E1 E2].
    apply N.eqb_eq in E1, E2. congruence.
  - reflexivity.
Qed.

Lemma sub_spaces_nodouble s : nodouble (sub_spaces s) = true.
Proof.
  induction s as [|c r IH]; [reflexivity|].
  destruct r as [|d r']; [reflexivity|].
  rewrite sub_spaces_cons2.
  destruct ((c =? SPACE) && (d =? SPACE)) eqn:E; [exact IH|].
  pose proof (sub_spaces_head (d :: r')) as Hh.
  destruct (sub_spaces (d :: r')) as [|e t] eqn:Et; [reflexivity|].
  cbn in Hh. injection Hh as ->.
  cbn [nodouble]. cbn [nodouble] in IH. rewrite E. exact IH.
Qed.

Lemma sub_spaces_Forall (P : N -> Prop) s : Forall P s -> Forall P (sub_spaces s).
Proof.
  induction s as [|c r IH]; [constructor|].
  intros H. inversion H as [|? ? Hc Hr]; subst.
  destruct r as [|d r']; [repeat constructor; exact Hc|].
  rewrite sub_spaces_cons2. destruct ((c =? SPACE) && (d =? SPACE)).
  - apply IH, Hr.
  - constructor; [exact Hc | apply IH, Hr].
Qed.

Lemma nodouble_tail c r : nodouble (c :: r) = true -> nodouble r = true.
Proof.
  destruct r as [|d r']; [reflexivity|]. cbn [nodouble].
  intros H. apply andb_true_iff in H as [_ H]. exact H.
Qed.

Lemma nodouble_suffix a m : nodouble (a ++ m) = true -> nodouble m = true.
Proof.
  induction a as [|c a IH]; [auto|].
  intros H. apply IH. exact (nodouble_tail _ _ H).
Qed.

Lemma nodouble_prefix m b : nodouble (m ++ b) = true -> nodouble m = true.
Proof.
  induction m as [|c m IH]; [reflexivity|].
  destruct m as [|d m']; [reflexivity|].
  cbn [app nodouble]. intros H. apply andb_true_iff in H as [H1 H2].
  rewrite H1. cbn. apply IH. exact H2.
Qed.

Lemma lstrip_spec s :
  ∃ a, s = a ++ lstrip s ∧ Forall (fun c => isspace c = true) a
       ∧ ∀ c, head (lstrip s) = Some c -> isspace c = false.
Proof.
  induction s as [|c r (a & Hs & Ha & Hh)].
  - exists []. repeat split; [constructor | discriminate].
  - cbn [lstrip]. destruct (isspace c) eqn:E.
    + exists (c :: a). split; [cbn; congruence|].
      split; [constructor; assumption | exact Hh].
    + exists []. split; [reflexivity|]. split; [constructor|].
      intros c' [= <-]. exact E.
Qed.

Lemma strip_spec s :
  ∃ a b, s = a ++ strip s ++ b
         ∧ (∀ c, head (strip s) = Some c -> isspace c = false)
         ∧ (∀ c, last (strip s) = Some c -> isspace c = false).
Proof.
  unfold strip.
  destruct (lstrip_spec s) as (a & Hs & _ & Hh).
  destruct (lstrip_spec (reverse (lstrip s))) as (a' & Hr & _ & Hh').
  set (t := lstrip s) in *. set (u := lstrip (reverse t)) in *.
  assert (Ht : t = reverse u ++ reverse a').
  { rewrite <- (reverse_involutive t), Hr, reverse_app. reflexivity. }
  exists a, (reverse a'). split; [rewrite <- Ht; exact Hs|]. split.
  - intros c Hc. apply Hh. rewrite Ht.
    destruct (reverse u); [discriminate | exact Hc].
  - intros c Hc. apply Hh'. rewrite <- Hc. symmetry. apply last_reverse.
Qed.

Lemma split_cons sep c r :
  split sep (c :: r) =
  if c =? sep then [] :: split sep r
  else (c :: hd [] (split sep r)) :: tl (split sep r).
Proof.
  cbn [split]. destruct (c =? sep); [reflexivity|].
  destruct (split sep r); reflexivity.
Qed.

Lemma split_not_nil sep s : split sep s ≠ [].
Proof. destruct s; [discriminate|]. rewrite split_cons. destruct (_ =? _); discriminate. Qed.

Lemma split_hd_tl sep s : split sep s = hd [] (split sep s) :: tl (split sep s).
Proof. pose proof (split_not_nil sep s). destruct (split sep s); [done | reflexivity]. Qed.

(** A piece of [split] holds characters of the string other than the
    separator. *)
Lemma split_chars sep s w :
  w ∈ split sep s -> Forall (fun c => c ∈ s ∧ c ≠ sep) w.
Proof.
  revert w. induction s as [|c r IH]; intros w Hw.
  - apply list_elem_of_singleton in Hw as ->. constructor.
  - rewrite split_cons in Hw. destruct (c =? sep) eqn:E.
    + apply elem_of_cons in Hw as [-> | Hw]; [constructor|].
      eapply Forall_impl; [apply IH, Hw|]. cbn. intros x [? ?].
      split; [by right | done].
    + apply N.eqb_neq in E.
      assert (Hall : ∀ v, v ∈ split sep r -> Forall (fun x => x ∈ c :: r ∧ x ≠ sep) v).
      { intros v Hv. eapply Forall_impl; [apply IH, Hv|]. cbn.
        intros x [? ?]. split; [by right | done]. }
      rewrite (split_hd_tl sep r) in Hall.
      apply elem_of_cons in Hw as [-> | Hw].
      * constructor; [split; [by left | done]|]. apply Hall. by left.
      * apply Hall. by right.
Qed.

(** Without a leading, a trailing or a doubled separator, no piece of
    [split] is empty. *)
Lemma split_pieces s :
  nodouble s = true -> last s ≠ Some SPACE ->
  Forall (fun w => w ≠ []) (tl (split SPACE s))
  ∧ (s ≠ [] -> head s ≠ Some SPACE -> hd [] (split SPACE s) ≠ []).
Proof.
  induction s as [|c r IH]; intros Hnd Hlast.
  - split; [constructor | done].
  - rewrite split_cons. destruct (c =? SPACE) eqn:E.
    + apply N.eqb_eq in E. subst c. split; [|cbn; intros _ H; done].
      cbn [tl]. destruct r as [|d r'].
      { exfalso. apply Hlast. reflexivity. }
      assert (Hd : d ≠ SPACE).
      { cbn [nodouble] in Hnd. apply andb_true_iff in Hnd as [Hn _].
        intros ->. cbn in Hn. discriminate. }
      destruct IH as [IH1 IH2].
      { exact (nodouble_tail _ _ Hnd). }
      { intros H. apply Hlast. rewrite <- H. reflexivity. }
      rewrite split_hd_tl. constructor; [|exact IH1].
      apply IH2; [discriminate | cbn; congruence].
    + split; [|cbn; intros _ _; discriminate].
      cbn [tl]. destruct r as [|d r']; [constructor|].
      apply IH; [exact (nodouble_tail _ _ Hnd)|].
      intros H. apply Hlast. rewrite <- H. reflexivity.
Qed.

Lemma isspace_SPACE : isspace SPACE = true.
Proof. reflexivity. Qed.

(** The cleaned text of a cell has no doubled space, starts and ends
    with a letter, and holds only letters and spaces. *)
Lemma clean_shape text :
  nodouble (clean text) = true
  ∧ head (clean text) ≠ Some SPACE
  ∧ last (clean text) ≠ Some SPACE
  ∧ Forall (fun c => spanish_or_space c = true) (clean text).
Proof.
  unfold clean.
  set (t := sub_spaces (sub_non_spanish text)).
  destruct (strip_spec t) as (a & b & Ht & Hh & Hl).
  assert (Hnd : nodouble t = true) by apply sub_spaces_nodouble.
  assert (Hcl : Forall (fun c => spanish_or_space c = true) t)
    by apply sub_spaces_Forall, sub_non_spanish_class.
  rewrite Ht in Hnd, Hcl. repeat split.
  - eapply nodouble_prefix, nodouble_suffix, Hnd.
  - intros H. apply Hh in H. rewrite isspace_SPACE in H. discriminate.
  - intros H. apply Hl in H. rewrite isspace_SPACE in H. discriminate.
  - apply Forall_app in Hcl as [_ Hcl]. apply Forall_app in Hcl as [Hcl _].
    exact Hcl.
Qed.

(** The words of a cell that is not skipped (line 71) are non-empty
    and made of letters of the class of line 64. *)
Lemma tokens_letters text w :
  clean text ≠ [] -> w ∈ split SPACE (clean text) ->
  w ≠ [] ∧ Forall letter w.
Proof.
  intros Hne Hw.
  destruct (clean_shape text) as (Hnd & Hh & Hl & Hcl).
  split.
  - destruct (split_pieces (clean text) Hnd Hl) as [H1 H2].
    specialize (H2 Hne Hh).
    rewrite split_hd_tl in Hw. apply elem_of_cons in Hw as [-> | Hw]; [exact H2|].
    rewrite Forall_forall in H1. apply H1, Hw.
  - eapply Forall_impl; [apply (split_chars _ _ _ Hw)|].
    cbn. intros c [Hc Hsp]. split; [|exact Hsp].
    rewrite Forall_forall in Hcl. apply Hcl, Hc.
Qed.

Lemma letter_not_NEWLINE c : letter c -> c ≠ NEWLINE.
Proof. intros [H _] ->. vm_compute in H. discriminate. Qed.

(** On letters, [lower_char] is Python's [str.lower]: the letters are
    below 256, where the model of [lower] is exact. *)
Lemma letter_latin1 c : letter c -> c < 256.
Proof.
  intros [H _]. unfold spanish_or_space in H.
  repeat (apply orb_true_iff in H as [H | H]);
    try (apply andb_true_iff in H as [H1 H2]; apply N.leb_le in H1, H2; lia);
    try (apply N.eqb_eq in H; subst; reflexivity).
  - apply bool_decide_eq_true in H.
    repeat (apply elem_of_cons in H as [-> | H]; [reflexivity|]).
    by apply elem_of_nil in H.
  - apply bool_decide_eq_true in H.
    repeat (apply elem_of_cons in H as [-> | H]; [reflexivity|]).
    by apply elem_of_nil in H.
Qed.

(** ** Laws of the computations *)

Lemma bind_ret_l {A B} (a : A) (k : A -> M B) w : bind (ret a) k w = k a w.
Proof. reflexivity. Qed.

Lemma bind_assoc {A B C} (m : M A) (k : A -> M B) (h : B -> M C) w :
  bind (bind m k) h w = bind m (fun a => bind (k a) h) w.
Proof. unfold bind. destruct (m w) as [[a|e|] w1]; reflexivity. Qed.

Lemma bind_ext {A B} (m1 m2 : M A) (k1 k2 : A -> M B) w :
  m1 w = m2 w -> (∀ a w1, k1 a w1 = k2 a w1) -> bind m1 k1 w = bind m2 k2 w.
Proof.
  intros Hm Hk. unfold bind. rewrite Hm.
  destruct (m2 w) as [[a|e|] w1]; [apply Hk | reflexivity | reflexivity].
Qed.

Lemma run_steps_app outputs l1 l2 fr w :
  run_steps outputs (l1 ++ l2) fr w =
  bind (run_steps outputs l1 fr) (run_steps outputs l2) w.
Proof.
  revert fr w. induction l1 as [|st l1 IH]; intros fr w; [reflexivity|].
  cbn [app run_steps]. rewrite bind_assoc. apply bind_ext; [reflexivity|].
  intros fr1 w1. apply IH.
Qed.

(** ** Searches in the document *)

Lemma filter_seq_head (P : nat -> Prop) `{∀ x, Decision (P x)} a len j rest :
  filter P (seq a len) = j :: rest ->
  (a <= j < a + len)%nat ∧ P j
  ∧ rest = filter P (seq (S j) (a + len - S j)).
Proof.
  revert a. induction len as [|len IH]; intros a; [discriminate|].
  cbn [seq]. rewrite filter_cons. destruct (decide (P a)) as [Ha|Ha].
  - intros [= <- <-]. split; [lia|]. split; [exact Ha|].
    replace (a + S len - S a)%nat with len by lia. reflexivity.
  - intros Hf. apply IH in Hf as (Hj & HP & ->).
    split; [lia|]. split; [exact HP|].
    replace (a + S len - S j)%nat with (S a + len - S j)%nat by lia. reflexivity.
Qed.

Lemma after_elem s n j : j ∈ after s n ↔ (n < j < length s)%nat.
Proof. unfold after. rewrite elem_of_seq. lia. Qed.

Lemma find_next_siblings_cons s n nm j rest :
  find_next_siblings s n nm = j :: rest ->
  (n < j < length s)%nat ∧ sibling_named s n nm j
  ∧ rest = find_next_siblings s j nm.
Proof.
  unfold find_next_siblings, after. intros Hf.
  apply filter_seq_head in Hf as (Hj & HP & ->).
  split; [lia|]. split; [exact HP|].
  replace (S n + (length s - S n) - S j)%nat with (length s - S j)%nat by lia.
  apply list_filter_iff. intros k. unfold sibling_named.
  destruct HP as [_ Hp]. rewrite Hp. reflexivity.
Qed.

(** The siblings found from [n] are the next one followed by those
    found from it. *)
Lemma chain_step s nm n :
  find_next_siblings s n nm = chain s nm (find_next_sibling s n nm).
Proof.
  unfold find_next_sibling, chain.
  destruct (find_next_siblings s n nm) as [|j rest] eqn:E; [reflexivity|].
  apply find_next_siblings_cons in E as (_ & _ & ->). reflexivity.
Qed.

Lemma find_next_sibling_lt s n nm j :
  find_next_sibling s n nm = Some j -> (n < j < length s)%nat.
Proof.
  unfold find_next_sibling.
  destruct (find_next_siblings s n nm) as [|k rest] eqn:E; [discriminate|].
  intros [= ->]. apply find_next_siblings_cons in E. tauto.
Qed.

(** ** The loops of [parse] run over the walk *)

Lemma row_body_steps s outputs section subsection row fr w :
  row_body s outputs section subsection row fr w =
  run_steps outputs (row_steps s section subsection row) fr w.
Proof.
  unfold row_body, row_steps, cell_turn.
  destruct (find_next s row "td") as [c0|]; [|reflexivity].
  cbn [run_steps do_step]. rewrite bind_assoc.
  apply bind_ext; [reflexivity|]. intros fr1 w1. rewrite bind_ret_l. cbn [fst snd].
  destruct (find_next s c0 "td") as [c1|]; [|reflexivity].
  cbn [run_steps do_step]. rewrite !bind_assoc.
  apply bind_ext; [reflexivity|]. intros fr2 w2. reflexivity.
Qed.

Lemma rows_loop_steps s outputs section subsection h3 fuel :
  ∀ row fr w,
    (∀ r, row = Some r -> (length s - r < fuel)%nat) ->
    rows_loop fuel s outputs section subsection row h3 fr w =
    run_steps outputs
      (flat_map (row_steps s section subsection)
         (take_while (fun r => before s r h3) (chain s "tr" row))) fr w.
Proof.
  induction fuel as [|fuel IH]; intros row fr w Hfuel.
  - destruct row as [r|]; [|reflexivity].
    specialize (Hfuel r eq_refl). lia.
  - destruct row as [r|]; [|reflexivity].
    cbn [rows_loop chain take_while].
    destruct (before s r h3); [|reflexivity].
    cbn [flat_map]. rewrite run_steps_app.
    apply bind_ext; [apply row_body_steps|]. intros fr1 w1.
    rewrite chain_step. apply IH.
    intros j Hj. apply find_next_sibling_lt in Hj.
    specialize (Hfuel r eq_refl). lia.
Qed.

Lemma find_next_lt s n nm j :
  find_next s n nm = Some j -> (n < j < length s)%nat.
Proof.
  unfold find_next, find_all_next. intros H.
  apply head_Some in H as [rest H].
  assert (Hj : j ∈ filter (named s nm) (after s n)) by (rewrite H; left).
  apply list_elem_of_filter in Hj as [_ Hj]. by apply after_elem.
Qed.

Lemma find_lt s nm j : find s nm = Some j -> (j < length s)%nat.
Proof.
  unfold find, find_all. intros H.
  apply head_Some in H as [rest H].
  assert (Hj : j ∈ filter (named s nm) (seq 0 (length s))) by (rewrite H; left).
  apply list_elem_of_filter in Hj as [_ Hj]. apply elem_of_seq in Hj. lia.
Qed.

Lemma subsections_loop_steps s outputs section h2 fuel :
  ∀ h3 fr w,
    (∀ n3, h3 = Some n3 -> (length s - n3 < fuel)%nat) ->
    subsections_loop fuel s outputs section h3 h2 fr w =
    run_steps outputs
      (flat_map (subsection_steps s section)
         (take_while (fun n3 => before s n3 h2) (chain s "h3" h3))) fr w.
Proof.
  induction fuel as [|fuel IH]; intros h3 fr w Hfuel.
  - destruct h3 as [n3|]; [|reflexivity].
    specialize (Hfuel n3 eq_refl). lia.
  - destruct h3 as [n3|]; [|reflexivity].
    cbn [subsections_loop chain take_while].
    destruct (before s n3 h2); [|reflexivity].
    cbn [flat_map]. rewrite run_steps_app.
    apply bind_ext.
    + unfold subsection_steps, rows_of. apply rows_loop_steps.
      intros r Hr. apply find_next_lt in Hr. lia.
    + intros fr1 w1. rewrite chain_step. apply IH.
      intros j Hj. apply find_next_sibling_lt in Hj.
      specialize (Hfuel n3 eq_refl). lia.
Qed.

Lemma sections_loop_steps s outputs fuel :
  ∀ h2 fr w,
    (∀ n2, h2 = Some n2 -> (length s - n2 < fuel)%nat) ->
    sections_loop fuel s outputs h2 fr w =
    run_steps outputs (flat_map (section_steps s) (chain s "h2" h2)) fr w.
Proof.
  induction fuel as [|fuel IH]; intros h2 fr w Hfuel.
  - destruct h2 as [n2|]; [|reflexivity].
    specialize (Hfuel n2 eq_refl). lia.
  - destruct h2 as [n2|]; [|reflexivity].
    cbn [sections_loop chain flat_map]. rewrite run_steps_app.
    apply bind_ext.
    + unfold section_steps, subsections_of. apply subsections_loop_steps.
      intros n3 Hn3. apply find_next_lt in Hn3. lia.
    + intros fr1 w1. rewrite chain_step. apply IH.
      intros j Hj. apply find_next_sibling_lt in Hj.
      specialize (Hfuel n2 eq_refl). lia.
Qed.

(** With the fuel that [parse] gives it, the loop over sections runs
    the steps of the walk, one after the other. *)
Lemma sections_loop_walk s outputs fr w :
  sections_loop (S (length s)) s outputs (find s "h2") fr w =
  run_steps outputs (walk s) fr w.
Proof.
  apply sections_loop_steps. intros n2 Hn2. apply find_lt in Hn2. lia.
Qed.

(** ** The loop over the words of a cell (lines 73-77) *)

Lemma keep_word_cases sw all word :
  (word = lower word ∧ (word ∉ all)
   ∧ keep_word (sw, all) word = ({[word]} ∪ sw, {[word]} ∪ all))
  ∨ (¬ (word = lower word ∧ word ∉ all)
     ∧ keep_word (sw, all) word = (sw, all)).
Proof.
  unfold keep_word.
  destruct (bool_decide (word = lower word)) eqn:E1;
    destruct (bool_decide (word ∉ all)) eqn:E2; cbn [andb];
    try apply bool_decide_eq_true in E1; try apply bool_decide_eq_true in E2;
    try apply bool_decide_eq_false in E1; try apply bool_decide_eq_false in E2;
    [left | right | right | right]; tauto.
Qed.

Lemma keep_fold list_words :
  ∀ sw all, sw ⊆ all ->
    let r := foldl keep_word (sw, all) list_words in
    (∀ x, x ∈ r.1 ↔ x ∈ sw ∨ (x ∈ list_words ∧ x = lower x ∧ x ∉ all))
    ∧ r.2 = all ∪ r.1.
Proof.
  induction list_words as [|word ws IH]; intros sw all Hsub; cbn zeta.
  - cbn [foldl fst snd]. split.
    + intros x. rewrite elem_of_nil. tauto.
    + set_solver.
  - cbn [foldl].
    destruct (keep_word_cases sw all word) as [(Hl & Hn & ->) | (Hno & ->)].
    + destruct (IH ({[word]} ∪ sw) ({[word]} ∪ all)) as [IH1 IH2]; [set_solver|].
      split.
      * intros x. rewrite IH1, elem_of_cons.
        destruct (decide (x = word)) as [->|Hx]; set_solver.
      * rewrite IH2. apply set_eq. intros x. specialize (IH1 word). set_solver.
    + destruct (IH sw all Hsub) as [IH1 IH2]. split; [|exact IH2].
      intros x. rewrite IH1, elem_of_cons.
      destruct (decide (x = word)) as [->|Hx]; [|set_solver].
      split; [tauto|]. intros [?|([?|?] & ? & ?)]; tauto.
Qed.

(** The words kept for a cell are its words that are lowercase as
    written and new; the vocabulary grows by exactly them. *)
Lemma keep_words_spec list_words all :
  (∀ x, x ∈ (keep_words list_words all).1
        ↔ x ∈ list_words ∧ x = lower x ∧ x ∉ all)
  ∧ (keep_words list_words all).2 = all ∪ (keep_words list_words all).1.
Proof.
  unfold keep_words.
  destruct (keep_fold list_words ∅ all) as [H1 H2]; [set_solver|].
  split; [|exact H2]. intros x. rewrite H1. set_solver.
Qed.

(** ** One cell (lines 63-83) *)

Lemma for_each_rows outputs i data (l : list str) w :
  for_each l (fun _ => bind (index outputs i) (fun output => write output data)) w =
  match l with
  | [] => (Returned tt, w)
  | _ :: _ =>
      match outputs !! i with
      | None => (Raised IndexError, w)
      | Some o =>
          (Returned tt, set_files (alter (append_rows (length l) data) o) w)
      end
  end.
Proof.
  revert w. induction l as [|x r IH]; intros w; [reflexivity|].
  cbn [for_each]. unfold bind at 1. unfold bind at 1. unfold index at 1.
  destruct (outputs !! i) as [o|] eqn:Eo; [|reflexivity].
  unfold ret. cbn beta iota. unfold write at 1, modify at 1. cbn beta iota.
  rewrite IH. destruct r as [|y r']; [reflexivity|].
  f_equal. unfold set_files; cbn. f_equal.
  rewrite list_alter_alter_eq. apply list_alter_ext; [|reflexivity].
  intros f _. unfold append_rows, compose; cbn.
  rewrite <- app_assoc. reflexivity.
Qed.

(** The closed form of [process_cell]. *)
Lemma process_cell_eq outputs section subsection i text fr w :
  process_cell outputs section subsection i text fr w =
  if bool_decide (clean text = []) then (Returned fr, w)
  else
    let kept := keep_words (split SPACE (clean text)) (all_words w) in
    let w1 := set_all_words kept.2 w in
    let finish (w2 : world) :=
      match counts fr !! i, words_in_page_by_level fr !! i with
      | Some c, Some ws =>
          (Returned
             (Frame (<[i := (c + Z.of_nat (size kept.1))%Z]> (counts fr))
                    (<[i := ws ∪ kept.1]> (words_in_page_by_level fr))), w2)
      | _, _ => (Raised IndexError, w2)
      end in
    match elements kept.1 with
    | [] => finish w1
    | _ :: _ =>
        match outputs !! i with
        | None => (Raised IndexError, w1)
        | Some o =>
            finish (set_files
                      (alter (append_rows (size kept.1)
                                (row_line section subsection)) o) w1)
        end
    end.
Proof.
  unfold process_cell.
  destruct (bool_decide (clean text = [])); [reflexivity|].
  cbn zeta. unfold bind at 1, gets at 1. unfold bind at 1, modify at 1.
  unfold bind at 1. rewrite for_each_rows.
  set (kept := keep_words _ _).
  unfold size, set_size, compose. cbn [fst].
  destruct (elements kept.1) as [|x l] eqn:El.
  - unfold bind, index.
    destruct (counts fr !! i); [|reflexivity].
    destruct (words_in_page_by_level fr !! i); reflexivity.
  - destruct (outputs !! i) as [o|]; [|reflexivity].
    unfold bind, index.
    destruct (counts fr !! i); [|reflexivity].
    destruct (words_in_page_by_level fr !! i); reflexivity.
Qed.

(** ** The stages of [parse] *)

Lemma world_eq w1 w2 :
  all_words w1 = all_words w2 -> words_by_level w1 = words_by_level w2 ->
  files w1 = files w2 -> stdout w1 = stdout w2 -> w1 = w2.
Proof. destruct w1, w2. cbn. intros -> -> -> ->. reflexivity. Qed.

Lemma open_outputs_eq page_number title_underbar levels :
  ∀ w,
    open_outputs page_number title_underbar levels w =
    (Returned (seq (length (files w)) (length levels)),
     set_files (fun fs => fs ++
       map (fun level => File (output_name page_number title_underbar level) [] false)
           levels) w).
Proof.
  induction levels as [|level r IH]; intros w.
  - cbn. unfold ret. f_equal. apply world_eq; cbn; try reflexivity.
    by rewrite app_nil_r.
  - cbn [open_outputs]. unfold bind at 1, open at 1. unfold bind at 1.
    rewrite IH. cbn [files]. unfold ret. f_equal.
    + rewrite length_app. cbn [length map]. rewrite Nat.add_1_r. reflexivity.
    + apply world_eq; cbn; try reflexivity. by rewrite <- app_assoc.
Qed.

Lemma write_each data todo :
  ∀ done fs0 w,
    files w = fs0 ++ done ++ todo ->
    for_each (seq (length fs0 + length done) (length todo))
             (fun output => write output data) w =
    (Returned tt,
     set_files (fun _ => fs0 ++ done ++ map (append_rows 1 data) todo) w).
Proof.
  induction todo as [|f t IH]; intros done fs0 w Hw.
  - cbn. unfold ret. f_equal. apply world_eq; cbn; try reflexivity. exact Hw.
  - cbn [length seq for_each]. unfold bind, write at 1, modify.
    rewrite <- Nat.add_succ_r.
    replace (S (length done)) with (length (done ++ [append_rows 1 data f]))
      by (rewrite length_app; cbn; lia).
    rewrite (IH (done ++ [append_rows 1 data f]) fs0).
    + f_equal. apply world_eq; cbn; try reflexivity.
      rewrite <- app_assoc. reflexivity.
    + cbn. rewrite Hw, app_assoc, <- length_app.
      rewrite <- (Nat.add_0_r (length (fs0 ++ done))), alter_app_r.
      cbn. rewrite <- !app_assoc. reflexivity.
Qed.

(** [parse] opens its files, runs over the walk of the page, and
    reports. *)
Lemma parse_eq s page_number levels w :
  parse s page_number levels w =
  match find s "h1" with
  | None => (Raised AttributeError, w)
  | Some h1 =>
      bind (run_steps (seq (length (files w)) (length levels)) (walk s)
              (Frame [0%Z; 0%Z] [∅; ∅]))
           (report page_number (title_of s h1) levels)
           (set_files (fun fs => fs ++
              new_outputs page_number (replace SPACE 95 (title_of s h1)) levels) w)
  end.
Proof.
  unfold parse. destruct (find s "h1") as [h1|]; [|reflexivity].
  cbn zeta. unfold bind at 1. rewrite open_outputs_eq.
  unfold bind at 1.
  pose proof (write_each header_line
    (map (fun level =>
            File (output_name page_number (replace SPACE 95 (title_of s h1)) level)
                 [] false) levels) [] (files w)) as Hh.
  cbn [length app] in Hh. rewrite Nat.add_0_r, length_map in Hh.
  rewrite Hh; [|reflexivity].
  match goal with
  | |- bind _ _ ?w1 = bind _ _ ?w2 => assert (Hw : w1 = w2)
  end.
  { apply world_eq; cbn; try reflexivity. unfold new_outputs.
    rewrite map_map. reflexivity. }
  rewrite Hw. apply bind_ext; [apply sections_loop_walk | reflexivity].
Qed.

Lemma elem_of_qualifying x ws : x ∈ qualifying ws ↔ x ∈ ws ∧ x = lower x.
Proof. unfold qualifying. rewrite elem_of_list_to_set, list_elem_of_filter. tauto. Qed.

Lemma qualifying_app l1 l2 : qualifying (l1 ++ l2) = qualifying l1 ∪ qualifying l2.
Proof.
  apply set_eq. intros x.
  rewrite elem_of_union, !elem_of_qualifying, elem_of_app. tauto.
Qed.

Lemma qualifying_nil : qualifying [] = ∅.
Proof. reflexivity. Qed.

(** Lines 73-77 keep the new words of the cell. *)
Lemma keep_words_new_words text all :
  clean text ≠ [] ->
  (keep_words (split SPACE (clean text)) all).1 = new_words text all
  ∧ (keep_words (split SPACE (clean text)) all).2 = all ∪ new_words text all.
Proof.
  intros Hne.
  destruct (keep_words_spec (split SPACE (clean text)) all) as [H1 H2].
  assert (E : (keep_words (split SPACE (clean text)) all).1 = new_words text all).
  { apply set_eq. intros x. rewrite H1. unfold new_words, cell_tokens.
    rewrite bool_decide_eq_false_2 by exact Hne.
    rewrite elem_of_difference, elem_of_qualifying. tauto. }
  split; [exact E|]. rewrite H2, E. reflexivity.
Qed.

Lemma new_words_skipped text all : clean text = [] -> new_words text all = ∅.
Proof.
  intros H. unfold new_words, cell_tokens.
  rewrite bool_decide_eq_true_2 by exact H. rewrite qualifying_nil. set_solver.
Qed.

(** What one cell does, in terms of its new words. *)
Lemma process_cell_spec outputs section subsection i text fr w :
  let r := process_cell outputs section subsection i text fr w in
  let K := new_words text (all_words w) in
  words_by_level r.2 = words_by_level w
  ∧ stdout r.2 = stdout w
  ∧ all_words r.2 = all_words w ∪ K
  ∧ (files r.2 = files w
     ∨ ∃ o, outputs !! i = Some o ∧ K ≠ ∅
            ∧ files r.2 = alter (append_rows (size K) (row_line section subsection))
                            o (files w))
  ∧ r.1 ≠ OutOfFuel
  ∧ (∀ fr', r.1 = Returned fr' ->
       (clean text = [] ∧ fr' = fr ∧ r.2 = w)
       ∨ (clean text ≠ []
          ∧ (∃ c ws, counts fr !! i = Some c
               ∧ words_in_page_by_level fr !! i = Some ws
               ∧ fr' = Frame (<[i := (c + Z.of_nat (size K))%Z]> (counts fr))
                             (<[i := ws ∪ K]> (words_in_page_by_level fr)))
          ∧ (K = ∅ ∧ files r.2 = files w
             ∨ ∃ o, outputs !! i = Some o ∧ K ≠ ∅
                  ∧ files r.2 = alter (append_rows (size K)
                                         (row_line section subsection))
                                  o (files w)))).
Proof.
  cbn zeta. rewrite process_cell_eq.
  destruct (bool_decide (clean text = [])) eqn:Ec.
  - apply bool_decide_eq_true in Ec. rewrite (new_words_skipped _ _ Ec). cbn.
    split; [done|]. split; [done|]. split; [set_solver|]. split; [by left|].
    split; [done|]. intros fr' [= <-]. left. done.
  - apply bool_decide_eq_false in Ec. cbn zeta.
    destruct (keep_words_new_words text (all_words w) Ec) as [-> ->].
    set (K := new_words text (all_words w)).
    destruct (elements K) as [|x l] eqn:El.
    + assert (HK : K = ∅) by (apply leibniz_equiv, elements_empty_iff, El).
      destruct (counts fr !! i) as [c|];
        [destruct (words_in_page_by_level fr !! i) as [ws|]|]; cbn;
        (split; [done|]); (split; [done|]); (split; [done|]);
        (split; [by left|]); (split; [done|]); try (intros ? [=]; fail).
      intros fr' [= <-]. right. split; [done|]. split; [by eexists _, _|].
      left. done.
    + assert (HK : K ≠ ∅).
      { intros HK. rewrite HK, elements_empty in El. discriminate. }
      destruct (outputs !! i) as [o|] eqn:Eo.
      * destruct (counts fr !! i) as [c|];
          [destruct (words_in_page_by_level fr !! i) as [ws|]|]; cbn;
          (split; [done|]); (split; [done|]); (split; [done|]);
          (split; [right; by eexists|]); (split; [done|]);
          try (intros ? [=]; fail).
        intros fr' [= <-]. right. split; [done|]. split; [by eexists _, _|].
        right. by eexists.
      * cbn. split; [done|]. split; [done|]. split; [done|]. split; [by left|].
        split; [done|]. intros ? [=].
Qed.

(** ** Running a list of steps *)

Lemma bind_returned {A B} (m : M A) (k : A -> M B) w b w' :
  bind m k w = (Returned b, w') ->
  ∃ a w1, m w = (Returned a, w1) ∧ k a w1 = (Returned b, w').
Proof.
  unfold bind. destruct (m w) as [[a|e|] w1]; [eauto | discriminate | discriminate].
Qed.

Lemma do_step_spec outputs st fr w :
  let r := do_step outputs st fr w in
  words_by_level r.2 = words_by_level w
  ∧ stdout r.2 = stdout w
  ∧ all_words w ⊆ all_words r.2
  ∧ r.1 ≠ OutOfFuel.
Proof.
  destruct st as [section subsection i text|]; cbn [do_step].
  - destruct (process_cell_spec outputs section subsection i text fr w)
      as (H1 & H2 & H3 & _ & H5 & _).
    cbn zeta. rewrite H3. repeat split; [done | done | set_solver | done].
  - cbn. repeat split; [set_solver | done].
Qed.

(** Whatever the outcome, the steps leave [words_by_level] and the
    console alone, only add to [all_words], and do not run out of
    fuel. *)
Lemma run_steps_any outputs l :
  ∀ fr w,
    let r := run_steps outputs l fr w in
    words_by_level r.2 = words_by_level w
    ∧ stdout r.2 = stdout w
    ∧ all_words w ⊆ all_words r.2
    ∧ r.1 ≠ OutOfFuel.
Proof.
  induction l as [|st l IH]; intros fr w; cbn zeta.
  - cbn. repeat split; [set_solver | done].
  - cbn [run_steps]. unfold bind.
    pose proof (do_step_spec outputs st fr w) as (H1 & H2 & H3 & H4).
    destruct (do_step outputs st fr w) as [[fr1|e|] w1]; cbn [fst snd] in *.
    + destruct (IH fr1 w1) as (I1 & I2 & I3 & I4).
      rewrite I1, I2. repeat split; [done | done | set_solver | done].
    + repeat split; done.
    + done.
Qed.

Lemma run_steps_inv outputs (P : world -> frame -> Prop) l :
  (∀ st fr w fr' w', st ∈ l -> P w fr ->
     do_step outputs st fr w = (Returned fr', w') -> P w' fr') ->
  ∀ fr w fr' w', P w fr ->
     run_steps outputs l fr w = (Returned fr', w') -> P w' fr'.
Proof.
  induction l as [|st l IH]; intros Hstep fr w fr' w' HP Hrun.
  - cbn in Hrun. injection Hrun as <- <-. exact HP.
  - cbn [run_steps] in Hrun. apply bind_returned in Hrun as (fr1 & w1 & Hs & Hr).
    eapply IH; [| |exact Hr].
    + intros st0 fr0 w0 fr0' w0' Hin. apply Hstep. by right.
    + eapply Hstep; [by left | exact HP | exact Hs].
Qed.

(** When the steps return, none of them was a missing cell, and the
    vocabulary has grown by the qualifying words of their cells. *)
Lemma run_steps_returned outputs l :
  ∀ fr w fr' w',
    run_steps outputs l fr w = (Returned fr', w') ->
    (NoCell ∉ l)
    ∧ all_words w' = all_words w ∪ qualifying (flat_map step_tokens l).
Proof.
  induction l as [|st l IH]; intros fr w fr' w' Hrun.
  - cbn in Hrun. injection Hrun as <- <-. split; [apply not_elem_of_nil|].
    cbn [flat_map]. rewrite qualifying_nil. set_solver.
  - cbn [run_steps] in Hrun. apply bind_returned in Hrun as (fr1 & w1 & Hs & Hr).
    apply IH in Hr as [Hn Ha]. destruct st as [section subsection i text|].
    + split; [rewrite not_elem_of_cons; split; [discriminate | exact Hn]|].
      cbn [do_step] in Hs.
      destruct (process_cell_spec outputs section subsection i text fr w)
        as (_ & _ & H3 & _).
      rewrite Hs in H3. cbn in H3. rewrite Ha, H3.
      cbn [flat_map step_tokens]. rewrite qualifying_app.
      unfold new_words. apply set_eq. intros x.
      rewrite !elem_of_union, elem_of_difference.
      destruct (decide (x ∈ all_words w)); tauto.
    + discriminate.
Qed.

Lemma page_inv_step outputs all0 st fr w fr' w' :
  page_inv all0 w fr ->
  do_step outputs st fr w = (Returned fr', w') -> page_inv all0 w' fr'.
Proof.
  intros (A & B & Hw & Hc & HAB & H0 & Hall) Hs.
  destruct st as [section subsection i text|]; [|discriminate].
  cbn [do_step] in Hs.
  destruct (process_cell_spec outputs section subsection i text fr w)
    as (_ & _ & H3 & _ & _ & H6).
  rewrite Hs in H3, H6. cbn [fst snd] in H3, H6.
  destruct (H6 fr' eq_refl) as [(_ & -> & ->) | (_ & (c & ws & Hci & Hwi & ->) & _)].
  { exists A, B. done. }
  set (K := new_words text (all_words w)) in *.
  assert (HK : K ## all_words w) by (unfold K, new_words; set_solver).
  rewrite Hw in Hwi. rewrite Hc in Hci. rewrite Hw, Hc. cbn [counts words_in_page_by_level].
  destruct i as [|[|i]]; cbn in Hwi, Hci; [| |discriminate].
  - injection Hwi as <-. injection Hci as <-. exists (A ∪ K), B. cbn.
    split; [done|]. split.
    { rewrite size_union by set_solver. rewrite Nat2Z.inj_add. done. }
    split; [set_solver|]. split; [set_solver|]. rewrite H3, Hall. set_solver.
  - injection Hwi as <-. injection Hci as <-. exists A, (B ∪ K). cbn.
    split; [done|]. split.
    { rewrite size_union by set_solver. rewrite Nat2Z.inj_add. done. }
    split; [set_solver|]. split; [set_solver|]. rewrite H3, Hall. set_solver.
Qed.

Lemma run_steps_page_inv outputs all0 l fr w fr' w' :
  page_inv all0 w fr ->
  run_steps outputs l fr w = (Returned fr', w') -> page_inv all0 w' fr'.
Proof.
  apply (run_steps_inv outputs (page_inv all0)).
  intros st fr0 w0 fr0' w0' _. apply page_inv_step.
Qed.

(** *** The files of the page *)

Lemma grown_refl C f : grown C f f.
Proof.
  split; [done|]. split; [done|]. exists []. split; [by rewrite app_nil_r | constructor].
Qed.

Lemma grown_trans C f g h : grown C f g -> grown C g h -> grown C f h.
Proof.
  intros (N1 & C1 & r1 & W1 & F1) (N2 & C2 & r2 & W2 & F2).
  split; [congruence|]. split; [congruence|].
  exists (r1 ++ r2). split; [rewrite W2, W1, app_assoc; done|].
  apply Forall_app; done.
Qed.

Lemma grown_weaken (C D : str -> Prop) f g :
  (∀ x, C x -> D x) -> grown C f g -> grown D f g.
Proof.
  intros HCD (N1 & C1 & r1 & W1 & F1). split; [done|]. split; [done|].
  exists r1. split; [done|]. eapply Forall_impl; eauto.
Qed.

Lemma Forall2_grown_refl C l : Forall2 (grown C) l l.
Proof. induction l; constructor; [apply grown_refl | done]. Qed.

Lemma grown_append_rows (C : str -> Prop) k data f :
  C data -> grown C f (append_rows k data f).
Proof.
  intros HC. split; [done|]. split; [done|]. exists (replicate k data).
  split; [done|]. apply Forall_replicate. done.
Qed.

(** The steps only write rows of their own cells to the files of the
    page, and touch no other file. *)
Lemma run_steps_files fs0 n l :
  ∀ fr w new,
    files w = fs0 ++ new -> length new = n ->
    ∃ new',
      files (run_steps (seq (length fs0) n) l fr w).2 = fs0 ++ new'
      ∧ Forall2 (grown (row_of l)) new new'.
Proof.
  induction l as [|st l IH]; intros fr w new Hf Hn.
  - exists new. split; [exact Hf | apply Forall2_grown_refl].
  - cbn [run_steps]. unfold bind.
    assert (Hstep : ∃ new1,
      files (do_step (seq (length fs0) n) st fr w).2 = fs0 ++ new1
      ∧ Forall2 (grown (row_of (st :: l))) new new1).
    { destruct st as [section subsection i text|]; cbn [do_step].
      - destruct (process_cell_spec (seq (length fs0) n) section subsection i text fr w)
          as (_ & _ & _ & [H4 | (o & Ho & _ & H4)] & _).
        + exists new. rewrite H4. split; [done | apply Forall2_grown_refl].
        + apply lookup_seq in Ho as [-> Hi].
          eexists. rewrite H4, Hf, alter_app_r. split; [reflexivity|].
          apply Forall2_alter_r; [apply Forall2_grown_refl|].
          intros f g Hl1 Hl2 Hg. eapply grown_trans; [exact Hg|].
          apply grown_append_rows. exists section, subsection, i, text.
          split; [by left | done].
      - exists new. split; [done | apply Forall2_grown_refl]. }
    destruct Hstep as (new1 & Hf1 & Hg1).
    destruct (do_step (seq (length fs0) n) st fr w) as [[fr1|e|] w1];
      cbn [fst snd] in *; try (exists new1; split; done).
    destruct (IH fr1 w1 new1 Hf1) as (new' & Hf' & Hg').
    { rewrite <- (Forall2_length _ _ _ Hg1). exact Hn. }
    exists new'. split; [exact Hf'|].
    assert (Hg2 : Forall2 (grown (row_of (st :: l))) new1 new').
    { eapply Forall2_impl; [exact Hg'|]. intros f g.
      apply grown_weaken. intros x (a & b & c & d & Hin & ->).
      exists a, b, c, d. split; [by right | done]. }
    eapply Forall2_trans; [|exact Hg1|exact Hg2].
    intros f g h. apply grown_trans.
Qed.

(** *** Running the steps again *)

Lemma run_steps_again outputs l :
  ∀ fr w c0 c1 A B,
    Forall cell_step l ->
    counts fr = [c0; c1] -> words_in_page_by_level fr = [A; B] ->
    qualifying (flat_map step_tokens l) ⊆ all_words w ->
    run_steps outputs l fr w = (Returned fr, w).
Proof.
  induction l as [|st l IH]; intros fr w c0 c1 A B Hl Hc Hw Hq; [reflexivity|].
  inversion Hl as [|? ? Hst Hl']; subst.
  destruct st as [section subsection i text|]; [|cbn in Hst; contradiction].
  cbn [flat_map step_tokens] in Hq. rewrite qualifying_app in Hq.
  cbn [run_steps do_step]. unfold bind.
  assert (HK : new_words text (all_words w) = ∅)
    by (unfold new_words; set_solver).
  destruct (process_cell_spec outputs section subsection i text fr w)
    as (H1 & H2 & H3 & H4 & H5 & H6).
  rewrite process_cell_eq in *.
  destruct (bool_decide (clean text = [])) eqn:Ec.
  - cbn [fst snd]. eapply IH; eauto. set_solver.
  - apply bool_decide_eq_false in Ec. cbn zeta in *.
    destruct (keep_words_new_words text (all_words w) Ec) as [E1 E2].
    rewrite E1, E2, HK in *. rewrite elements_empty in *.
    cbn in Hst. rewrite Hc, Hw in *.
    assert (Hwd : set_all_words (all_words w ∪ ∅) w = w).
    { apply world_eq; cbn; try done. set_solver. }
    rewrite Hwd. rewrite size_empty.
    destruct i as [|[|i]]; [| |lia]; cbn.
    + replace (A ∪ ∅) with A by set_solver. rewrite Z.add_0_r.
      rewrite <- Hc at 1. rewrite <- Hw at 1.
      replace (Frame (counts fr) (words_in_page_by_level fr)) with fr by (by destruct fr).
      eapply IH; eauto. set_solver.
    + replace (B ∪ ∅) with B by set_solver. rewrite Z.add_0_r.
      rewrite <- Hc at 1. rewrite <- Hw at 1.
      replace (Frame (counts fr) (words_in_page_by_level fr)) with fr by (by destruct fr).
      eapply IH; eauto. set_solver.
Qed.

(** ** The shape of the walk *)

Lemma elem_of_flat_map {A B} (f : A -> list B) (l : list A) (y : B) :
  y ∈ flat_map f l ↔ ∃ x, x ∈ l ∧ y ∈ f x.
Proof.
  rewrite list_elem_of_In, in_flat_map.
  split; intros (x & H1 & H2); exists x;
    [rewrite !list_elem_of_In | rewrite <- !list_elem_of_In]; done.
Qed.

Lemma elem_of_take_while {A} (p : A -> bool) l x :
  x ∈ take_while p l -> x ∈ l ∧ p x = true.
Proof.
  induction l as [|y l IH]; cbn; [by intros ?%elem_of_nil|].
  destruct (p y) eqn:E; [|by intros ?%elem_of_nil].
  intros [->|H]%elem_of_cons; [split; [by left | done]|].
  destruct (IH H). split; [by right | done].
Qed.

Lemma find_named s nm j : find s nm = Some j -> named s nm j.
Proof.
  unfold find, find_all. intros H. apply head_Some in H as [rest H].
  assert (Hj : j ∈ filter (named s nm) (seq 0 (length s))) by (rewrite H; left).
  by apply list_elem_of_filter in Hj as [Hj _].
Qed.

Lemma find_next_named s n nm j : find_next s n nm = Some j -> named s nm j.
Proof.
  unfold find_next, find_all_next. intros H. apply head_Some in H as [rest H].
  assert (Hj : j ∈ filter (named s nm) (after s n)) by (rewrite H; left).
  by apply list_elem_of_filter in Hj as [Hj _].
Qed.

Lemma chain_named s nm cur j :
  (∀ n, cur = Some n -> named s nm n) -> j ∈ chain s nm cur -> named s nm j.
Proof.
  destruct cur as [n|]; cbn; [|by intros _ ?%elem_of_nil].
  intros Hn [->|Hj]%elem_of_cons; [by apply Hn|].
  apply list_elem_of_filter in Hj as [[Hj _] _]. exact Hj.
Qed.

Lemma chain_after s nm n j :
  j ∈ chain s nm (find_next s n nm) -> (n < j < length s)%nat.
Proof.
  destruct (find_next s n nm) as [m|] eqn:E; cbn; [|by intros ?%elem_of_nil].
  apply find_next_lt in E.
  intros [->|Hj]%elem_of_cons; [done|].
  apply list_elem_of_filter in Hj as [_ Hj]. apply after_elem in Hj. lia.
Qed.


Lemma row_steps_shape s section subsection row st :
  st ∈ row_steps s section subsection row ->
  st = NoCell
  ∨ ∃ i c, st = Cell section subsection i (text_of s c)
           ∧ (i < 2)%nat ∧ named s "td" c ∧ (row < c)%nat.
Proof.
  unfold row_steps.
  destruct (find_next s row "td") as [c0|] eqn:E0.
  - pose proof (find_next_named _ _ _ _ E0). pose proof (find_next_lt _ _ _ _ E0).
    intros [->|Hst]%elem_of_cons.
    { right. exists 0%nat, c0. repeat split; [lia | done | lia]. }
    destruct (find_next s c0 "td") as [c1|] eqn:E1.
    + pose proof (find_next_named _ _ _ _ E1). pose proof (find_next_lt _ _ _ _ E1).
      apply list_elem_of_singleton in Hst as ->.
      right. exists 1%nat, c1. repeat split; [lia | done | lia].
    + apply list_elem_of_singleton in Hst as ->. by left.
  - intros ->%list_elem_of_singleton. by left.
Qed.

(** Every cell of the walk carries the stripped texts of a section
    heading and of a subsection heading attributed to it. *)
Lemma walk_shape s st :
  st ∈ walk s ->
  st = NoCell
  ∨ ∃ n2 n3 i c,
      n2 ∈ sections s ∧ n3 ∈ subsections_of s n2
      ∧ st = Cell (strip (text_of s n2)) (strip (text_of s n3)) i (text_of s c)
      ∧ (i < 2)%nat ∧ named s "td" c.
Proof.
  unfold walk. intros (n2 & Hn2 & H)%elem_of_flat_map.
  unfold section_steps in H. apply elem_of_flat_map in H as (n3 & Hn3 & H).
  unfold subsection_steps in H. apply elem_of_flat_map in H as (r & Hr & H).
  apply row_steps_shape in H as [->|(i & c & -> & Hi & Hc & _)]; [by left|].
  right. exists n2, n3, i, c. done.
Qed.

Lemma walk_cell_steps s : NoCell ∉ walk s -> Forall cell_step (walk s).
Proof.
  intros Hn. apply Forall_forall. intros st Hst.
  destruct (walk_shape s st Hst) as [->|(n2 & n3 & i & c & _ & _ & -> & Hi & _)];
    [done | exact Hi].
Qed.

(** ** The report (lines 85-88) *)

(** ** The report (lines 85-88) *)

Lemma report_eq page_number title levels fr c0 c1 w :
  counts fr = [c0; c1] ->
  report page_number title levels fr w =
  match levels with
  | l0 :: l1 :: _ =>
      (Returned (words_in_page_by_level fr),
       add_lines [title_line page_number title; level_line l0 c0;
                  level_line l1 c1] w)
  | [l0] =>
      (Raised IndexError,
       add_lines [title_line page_number title; level_line l0 c0] w)
  | [] => (Raised IndexError, add_lines [title_line page_number title] w)
  end.
Proof.
  intros Hc. unfold report. rewrite Hc.
  destruct levels as [|l0 [|l1 rest]]; cbn; unfold add_lines; cbn;
    rewrite <- ?app_assoc; reflexivity.
Qed.

Lemma report_any page_number title levels fr c0 c1 w :
  counts fr = [c0; c1] ->
  let r := report page_number title levels fr w in
  all_words r.2 = all_words w ∧ words_by_level r.2 = words_by_level w
  ∧ files r.2 = files w ∧ r.1 ≠ OutOfFuel.
Proof.
  intros Hc. cbn zeta. rewrite (report_eq _ _ _ _ _ _ _ Hc).
  destruct levels as [|l0 [|l1 rest]]; cbn; done.
Qed.

(** ** [parse] as a whole *)

Lemma page_inv_init w :
  page_inv (all_words w) w (Frame [0%Z; 0%Z] [∅; ∅]).
Proof.
  exists ∅, ∅. cbn. rewrite size_empty. repeat split; [set_solver..].
Qed.

Lemma page_inv_set_files all0 f w fr :
  page_inv all0 w fr -> page_inv all0 (set_files f w) fr.
Proof. intros (A & B & H). exists A, B. exact H. Qed.

(** Whatever its outcome, [parse] leaves [words_by_level] alone, only
    adds to [all_words], does not run out of fuel, and leaves the file
    objects that existed untouched; the file objects it creates carry
    the header row and rows of cells of the walk, and none of them is
    closed. *)
Lemma parse_any s page_number levels w :
  let r := parse s page_number levels w in
  words_by_level r.2 = words_by_level w
  ∧ all_words w ⊆ all_words r.2
  ∧ r.1 ≠ OutOfFuel
  ∧ match find s "h1" with
    | None => files r.2 = files w
    | Some h1 =>
        ∃ new,
          files r.2 = files w ++ new
          ∧ Forall2 (grown (row_of (walk s)))
              (new_outputs page_number (replace SPACE 95 (title_of s h1)) levels)
              new
    end.
Proof.
  cbn zeta. rewrite parse_eq.
  destruct (find s "h1") as [h1|]; [|cbn; repeat split; [set_solver | done]].
  set (w0 := set_files _ w).
  set (outputs := seq _ _). set (fr0 := Frame _ _).
  pose proof (run_steps_any outputs (walk s) fr0 w0) as (H1 & H2 & H3 & H4).
  destruct (run_steps_files (files w) (length levels) (walk s) fr0 w0
              (new_outputs page_number (replace SPACE 95 (title_of s h1)) levels))
    as (new & Hf & Hg); [reflexivity | unfold new_outputs; apply length_map|].
  fold outputs in Hf.
  unfold bind.
  destruct (run_steps outputs (walk s) fr0 w0) as [[fr|e|] w1] eqn:Er;
    cbn [fst snd] in *.
  - assert (Hinv : page_inv (all_words w) w1 fr).
    { eapply run_steps_page_inv; [|exact Er].
      apply page_inv_set_files, page_inv_init. }
    destruct Hinv as (A & B & _ & Hc & _).
    destruct (report_any page_number (title_of s h1) levels fr _ _ w1 Hc)
      as (R1 & R2 & R3 & R4).
    rewrite R1, R2, R3. repeat split; [done | done | done |].
    exists new. done.
  - repeat split; [done | done | done |]. exists new. done.
  - done.
Qed.


(** What [parse] has done when it returns. *)
Lemma parse_returned s page_number levels w result w1 :
  parse s page_number levels w = (Returned result, w1) ->
  ∃ h1 A B l0 l1 rest,
    find s "h1" = Some h1 ∧ levels = l0 :: l1 :: rest
    ∧ result = [A; B] ∧ A ## B ∧ (A ∪ B) ## all_words w
    ∧ all_words w1 = all_words w ∪ A ∪ B
    ∧ all_words w1 = all_words w ∪ qualifying (page_tokens s)
    ∧ (NoCell ∉ walk s)
    ∧ stdout w1 = stdout w ++
        [title_line page_number (title_of s h1);
         level_line l0 (Z.of_nat (size A)); level_line l1 (Z.of_nat (size B))].
Proof.
  rewrite parse_eq. destruct (find s "h1") as [h1|]; [|discriminate].
  set (w0 := set_files _ w). set (outputs := seq _ _). set (fr0 := Frame _ _).
  intros (fr & w2 & Er & Hrep)%bind_returned.
  assert (Hinv : page_inv (all_words w) w2 fr).
  { eapply run_steps_page_inv; [|exact Er].
    apply page_inv_set_files, page_inv_init. }
  destruct Hinv as (A & B & Hw & Hc & HAB & H0 & Hall).
  rewrite (report_eq _ _ _ _ _ _ _ Hc) in Hrep.
  destruct levels as [|l0 [|l1 rest]]; [discriminate | discriminate |].
  injection Hrep as <- <-.
  pose proof (run_steps_any outputs (walk s) fr0 w0) as (_ & H2 & _).
  rewrite Er in H2. cbn [snd] in H2.
  apply run_steps_returned in Er as [Hn Hq].
  exists h1, A, B, l0, l1, rest.
  unfold add_lines. cbn [all_words stdout]. rewrite H2.
  repeat split; done.
Qed.

(** Parsing a page again, once the vocabulary holds its qualifying
    words, keeps no word. *)
Lemma parse_again s page_number levels w result w1 w2 :
  parse s page_number levels w = (Returned result, w1) ->
  qualifying (page_tokens s) ⊆ all_words w2 ->
  ∃ w3 h1 l0 l1 rest,
    parse s page_number levels w2 = (Returned [∅; ∅], w3)
    ∧ all_words w3 = all_words w2
    ∧ words_by_level w3 = words_by_level w2
    ∧ find s "h1" = Some h1 ∧ levels = l0 :: l1 :: rest
    ∧ stdout w3 = stdout w2 ++
        [title_line page_number (title_of s h1);
         level_line l0 0; level_line l1 0].
Proof.
  intros Hp Hq.
  apply parse_returned in Hp
    as (h1 & A & B & l0 & l1 & rest & Hh & -> & _ & _ & _ & _ & _ & Hn & _).
  rewrite parse_eq, Hh. unfold bind.
  erewrite run_steps_again;
    [|by apply walk_cell_steps|reflexivity|reflexivity|exact Hq].
  erewrite report_eq by reflexivity.
  eexists _, h1, l0, l1, rest. split; [reflexivity|]. done.
Qed.

(** ** The aggregation driver *)

Lemma merge_level_eq levels result i w :
  merge_level levels result i w =
  match levels !! i with
  | None => (Raised IndexError, w)
  | Some level =>
      match words_by_level w !! level with
      | None => (Raised KeyError, w)
      | Some ws =>
          match result !! i with
          | None => (Raised IndexError, w)
          | Some r =>
              (Returned tt,
               set_words_by_level (<[level := ws ∪ r]> (words_by_level w)) w)
          end
      end
  end.
Proof.
  unfold merge_level, bind, index, gets.
  destruct (levels !! i) as [level|]; [|reflexivity]. cbn.
  destruct (words_by_level w !! level) as [ws|]; [|reflexivity].
  destruct (result !! i); reflexivity.
Qed.

Lemma merge_level_any levels result i w :
  let r := merge_level levels result i w in
  all_words r.2 = all_words w ∧ files r.2 = files w ∧ stdout r.2 = stdout w
  ∧ dom (words_by_level r.2) = dom (words_by_level w)
  ∧ r.1 ≠ OutOfFuel.
Proof.
  cbn zeta. rewrite merge_level_eq.
  destruct (levels !! i) as [level|]; [|done].
  destruct (words_by_level w !! level) as [ws|] eqn:E; [|done].
  destruct (result !! i); [|done]. cbn. repeat split; try done.
  rewrite dom_insert_L. apply elem_of_dom_2 in E. set_solver.
Qed.

(** Merging a set of new words into a level keeps the level sets
    disjoint and within the vocabulary. *)
Lemma merge_level_inv levels result i w R old :
  levels_disjoint (words_by_level w) ->
  levels_within (words_by_level w) old ->
  result !! i = Some R -> R ## old -> R ⊆ all_words w -> old ⊆ all_words w ->
  let r := merge_level levels result i w in
  levels_disjoint (words_by_level r.2)
  ∧ levels_within (words_by_level r.2) (old ∪ R)
  ∧ levels_within (words_by_level r.2) (all_words r.2).
Proof.
  intros Hd Hw HR Hfresh HRall Hold. cbn zeta. rewrite merge_level_eq.
  destruct (levels !! i) as [level|];
    [|cbn; repeat split; [done | | ]; intros L S HL; specialize (Hw L S HL); set_solver].
  destruct (words_by_level w !! level) as [ws|] eqn:E;
    [|cbn; repeat split; [done | | ]; intros L S HL; specialize (Hw L S HL); set_solver].
  rewrite HR. cbn. pose proof (Hw _ _ E) as Hws. repeat split.
  - intros L1 L2 S1 S2 Hne H1 H2.
    rewrite lookup_insert in H1, H2.
    destruct (decide (level = L1)) as [<-|N1];
      destruct (decide (level = L2)) as [<-|N2]; [done | | |].
    + injection H1 as <-. pose proof (Hd _ _ _ _ Hne E H2).
      specialize (Hw _ _ H2). set_solver.
    + injection H2 as <-. pose proof (Hd _ _ _ _ Hne H1 E).
      specialize (Hw _ _ H1). set_solver.
    + exact (Hd _ _ _ _ Hne H1 H2).
  - intros L S HL. rewrite lookup_insert in HL.
    destruct (decide (level = L)) as [<-|N].
    + injection HL as <-. set_solver.
    + specialize (Hw _ _ HL). set_solver.
  - intros L S HL. rewrite lookup_insert in HL.
    destruct (decide (level = L)) as [<-|N].
    + injection HL as <-. set_solver.
    + specialize (Hw _ _ HL). set_solver.
Qed.

Lemma level_inv_grow w w' :
  level_inv w -> words_by_level w' = words_by_level w ->
  all_words w ⊆ all_words w' -> level_inv w'.
Proof.
  intros [Hd Hw] Hl Ha. unfold level_inv. rewrite Hl. split; [exact Hd|].
  intros L S HL. specialize (Hw L S HL). set_solver.
Qed.

(** The states between the statements of lines 105-107. *)
Lemma doc_points d w :
  level_inv w ->
  level_inv (parse (page d) (section_number d) (levels_in_page d) w).2
  ∧ ∀ result w1,
      parse (page d) (section_number d) (levels_in_page d) w = (Returned result, w1) ->
      level_inv (merge_level (levels_in_page d) result 0 w1).2
      ∧ level_inv (bind (merge_level (levels_in_page d) result 0)
                     (fun _ => merge_level (levels_in_page d) result 1) w1).2.
Proof.
  intros Hinv.
  pose proof (parse_any (page d) (section_number d) (levels_in_page d) w)
    as (P1 & P2 & _).
  split; [eapply level_inv_grow; eauto|].
  intros result w1 Hp. rewrite Hp in P1, P2. cbn [snd] in P1, P2.
  apply parse_returned in Hp
    as (h1 & A & B & l0 & l1 & rest & _ & _ & -> & HAB & H0 & Hall & _).
  destruct Hinv as [Hd Hw]. rewrite <- P1 in Hd, Hw.
  destruct (merge_level_inv (levels_in_page d) [A; B] 0 w1 A (all_words w))
    as (D1 & W1 & W1'); [done | done | done | set_solver | set_solver | set_solver |].
  split; [split; done|].
  unfold bind.
  pose proof (merge_level_any (levels_in_page d) [A; B] 0 w1) as (M1 & _).
  destruct (merge_level (levels_in_page d) [A; B] 0 w1) as [[[]|e|] w2];
    cbn [fst snd] in *; [|split; done..].
  destruct (merge_level_inv (levels_in_page d) [A; B] 1 w2 B (all_words w ∪ A))
    as (D2 & _ & W2); [done | done | done | set_solver | set_solver | set_solver |].
  split; done.
Qed.

Lemma doc_body_any d w :
  level_inv w ->
  let r := doc_body d w in
  level_inv r.2 ∧ all_words w ⊆ all_words r.2
  ∧ dom (words_by_level r.2) = dom (words_by_level w)
  ∧ r.1 ≠ OutOfFuel.
Proof.
  intros Hinv. cbn zeta.
  destruct (doc_points d w Hinv) as [Hp Hm].
  pose proof (parse_any (page d) (section_number d) (levels_in_page d) w)
    as (P1 & P2 & P3 & _).
  remember (doc_body d w) as r eqn:Er. unfold doc_body, bind in Er.
  destruct (parse (page d) (section_number d) (levels_in_page d) w)
    as [[result|e|] w1]; cbn [fst snd] in *.
  - destruct (Hm result w1 eq_refl) as [H0 H1]. unfold bind in H1.
    pose proof (merge_level_any (levels_in_page d) result 0 w1)
      as (A1 & _ & _ & A4 & A5).
    destruct (merge_level (levels_in_page d) result 0 w1) as [[[]|e|] w2];
      cbn [fst snd] in *.
    + pose proof (merge_level_any (levels_in_page d) result 1 w2)
        as (B1 & _ & _ & B4 & B5).
      destruct (merge_level (levels_in_page d) result 1 w2) as [[[]|e|] w3];
        cbn [fst snd] in *; subst r; cbn [fst snd ret];
        (split; [done|]; split; [set_solver|]; split; [congruence | done]).
    + subst r; cbn [fst snd].
      split; [done|]. split; [set_solver|]. split; [congruence | done].
    + done.
  - subst r; cbn [fst snd].
    split; [done|]. split; [done|]. split; [by rewrite P1 | done].
  - done.
Qed.

Lemma doc_body_returned d w result w1 :
  doc_body d w = (Returned result, w1) ->
  ∃ A B L0 L1 rest S0 S1,
    result = [A; B] ∧ levels_in_page d = L0 :: L1 :: rest
    ∧ A ## B ∧ (A ∪ B) ## all_words w
    ∧ all_words w1 = all_words w ∪ A ∪ B
    ∧ all_words w1 = all_words w ∪ qualifying (page_tokens (page d))
    ∧ words_by_level w !! L0 = Some S0
    ∧ <[L0 := S0 ∪ A]> (words_by_level w) !! L1 = Some S1
    ∧ words_by_level w1 = <[L1 := S1 ∪ B]> (<[L0 := S0 ∪ A]> (words_by_level w)).
Proof.
  unfold doc_body. intros (res & w2 & Hp & H)%bind_returned.
  apply bind_returned in H as ([] & w3 & Hm0 & H).
  apply bind_returned in H as ([] & w4 & Hm1 & H).
  injection H as <- <-.
  pose proof (parse_any (page d) (section_number d) (levels_in_page d) w)
    as (P1 & _). rewrite Hp in P1. cbn [snd] in P1.
  apply parse_returned in Hp
    as (h1 & A & B & l0 & l1 & rest & _ & Hl & -> & HAB & H0 & Hall & Hq & _).
  rewrite merge_level_eq, Hl in Hm0. cbn in Hm0.
  destruct (words_by_level w2 !! l0) as [S0|] eqn:E0; [|discriminate].
  injection Hm0 as <-.
  rewrite merge_level_eq, Hl in Hm1. cbn in Hm1.
  destruct (<[l0 := S0 ∪ A]> (words_by_level w2) !! l1) as [S1|] eqn:E1;
    [|discriminate].
  injection Hm1 as <-. cbn. rewrite P1 in *.
  exists A, B, l0, l1, rest, S0, S1. done.
Qed.

Lemma docs_loop_cons d ds w :
  docs_loop (d :: ds) w = bind (doc_body d) (fun _ => docs_loop ds) w.
Proof.
  cbn [docs_loop]. unfold doc_body. rewrite bind_assoc.
  apply bind_ext; [reflexivity|]. intros result w1.
  rewrite bind_assoc. apply bind_ext; [reflexivity|]. intros [] w2.
  rewrite bind_assoc. apply bind_ext; [reflexivity|]. intros [] w3.
  reflexivity.
Qed.

(** Whatever its outcome, the loop over the documents keeps the level
    sets disjoint and within the vocabulary, which only grows. *)
Lemma docs_loop_any ds :
  ∀ w, level_inv w ->
    let r := docs_loop ds w in
    level_inv r.2 ∧ all_words w ⊆ all_words r.2
    ∧ dom (words_by_level r.2) = dom (words_by_level w)
    ∧ r.1 ≠ OutOfFuel.
Proof.
  induction ds as [|d ds IH]; intros w Hinv; cbn zeta.
  - cbn. done.
  - rewrite docs_loop_cons. unfold bind.
    pose proof (doc_body_any d w Hinv) as (D1 & D2 & D3 & D4).
    destruct (doc_body d w) as [[result|e|] w1]; cbn [fst snd] in *; [|done|done].
    destruct (IH w1 D1) as (I1 & I2 & I3 & I4).
    split; [done|]. split; [set_solver|]. split; [congruence | done].
Qed.

Lemma attributed_pair L d A B L0 L1 rest :
  levels_in_page d = L0 :: L1 :: rest ->
  attributed L (d, [A; B]) =
  (if decide (L0 = L) then A else ∅) ∪ (if decide (L1 = L) then B else ∅).
Proof.
  intros Hl. unfold attributed. cbn [fst snd map]. rewrite Hl. cbn.
  apply set_eq. intros x.
  repeat case_bool_decide; repeat case_decide; simplify_eq; set_solver.
Qed.

Lemma doc_body_level d w A B w1 L S :
  doc_body d w = (Returned [A; B], w1) ->
  words_by_level w !! L = Some S ->
  words_by_level w1 !! L = Some (S ∪ attributed L (d, [A; B])).
Proof.
  intros Hb HL.
  apply doc_body_returned in Hb
    as (A' & B' & L0 & L1 & rest & S0 & S1 & Hr & Hl & _ & _ & _ & _
        & E0 & E1 & ->).
  injection Hr as <- <-.
  rewrite (attributed_pair _ _ _ _ _ _ _ Hl).
  rewrite lookup_insert in E1. rewrite !lookup_insert.
  repeat case_decide; simplify_eq; try rewrite HL; f_equal; set_solver.
Qed.

(** What the loop over the documents has done when it returns. *)
Lemma docs_loop_returned ds :
  ∀ w w',
    docs_loop ds w = (Returned tt, w') ->
    all_words w' =
      all_words w ∪ qualifying (flat_map (fun d => page_tokens (page d)) ds)
    ∧ (levels_cover (words_by_level w) (all_words w) ->
       levels_cover (words_by_level w') (all_words w'))
    ∧ ∀ L S, words_by_level w !! L = Some S ->
        words_by_level w' !! L =
          Some (S ∪ level_union L (parse_results ds w)).
Proof.
  induction ds as [|d ds IH]; intros w w' Hrun.
  - cbn in Hrun. injection Hrun as <-. cbn [flat_map parse_results].
    rewrite qualifying_nil. split; [set_solver|]. split; [done|].
    intros L S ->. f_equal. unfold level_union. cbn. set_solver.
  - rewrite docs_loop_cons in Hrun.
    apply bind_returned in Hrun as (result & w1 & Hb & Hrun).
    cbn [parse_results]. rewrite Hb.
    destruct (doc_body_returned _ _ _ _ Hb)
      as (A & B & L0 & L1 & rest & S0 & S1 & -> & Hl & HAB & H0 & Hall & Hq
          & E0 & E1 & Hw1).
    destruct (IH _ _ Hrun) as (I1 & I2 & I3).
    split; [|split].
    + rewrite I1, Hq. cbn [flat_map]. rewrite qualifying_app. set_solver.
    + intros Hc. apply I2. intros x Hx. rewrite Hall in Hx.
      assert (Hup : ∀ L S, words_by_level w !! L = Some S ->
                ∃ S', words_by_level w1 !! L = Some S' ∧ S ⊆ S').
      { intros L S HL. eexists. split; [eapply doc_body_level; eauto|]. set_solver. }
      apply elem_of_union in Hx as [Hx|Hx]; [apply elem_of_union in Hx as [Hx|Hx]|].
      * destruct (Hc x Hx) as (L & S & HL & HS).
        destruct (Hup L S HL) as (S' & HL' & HS'). exists L, S'. set_solver.
      * pose proof (doc_body_level _ _ _ _ _ _ _ Hb E0) as H.
        rewrite (attributed_pair _ _ _ _ _ _ _ Hl) in H.
        rewrite decide_True in H by done. eexists _, _. split; [exact H|]. set_solver.
      * rewrite lookup_insert in E1.
        destruct (decide (L0 = L1)) as [<-|Hne].
        -- pose proof (doc_body_level _ _ _ _ _ _ _ Hb E0) as H.
           rewrite (attributed_pair _ _ _ _ _ _ _ Hl) in H.
           rewrite !decide_True in H by done.
           eexists _, _. split; [exact H|]. set_solver.
        -- pose proof (doc_body_level _ _ _ _ _ _ _ Hb E1) as H.
           rewrite (attributed_pair _ _ _ _ _ _ _ Hl) in H.
           rewrite (decide_True (P := L1 = L1)) in H by done.
           eexists _, _. split; [exact H|]. set_solver.
    + intros L S HL.
      rewrite (I3 L _ (doc_body_level _ _ _ _ _ _ _ Hb HL)). f_equal.
      unfold level_union. cbn [map]. rewrite union_list_cons. set_solver.
Qed.

(** *** The consolidated files (lines 111-114) *)

Lemma write_level_eq level w :
  write_level level w =
  match words_by_level w !! level with
  | None =>
      (Raised KeyError,
       set_files (fun fs => fs ++ [File (level_file_name level) [] false]) w)
  | Some _ =>
      (Returned tt,
       set_files (fun fs => fs ++ [level_file (words_by_level w) level]) w)
  end.
Proof.
  unfold write_level, bind, open, gets. cbn [words_by_level].
  destruct (words_by_level w !! level) as [ws|] eqn:E; [|reflexivity].
  unfold write, close, modify. cbn. f_equal. apply world_eq; cbn; try reflexivity.
  rewrite <- (Nat.add_0_r (length (files w))), !alter_app_r. cbn.
  unfold level_file. rewrite E. reflexivity.
Qed.

Lemma write_levels_eq levels :
  ∀ w,
    (∀ level, level ∈ levels -> is_Some (words_by_level w !! level)) ->
    for_each levels write_level w =
    (Returned tt,
     set_files (fun fs => fs ++ map (level_file (words_by_level w)) levels) w).
Proof.
  induction levels as [|level r IH]; intros w Hk.
  - cbn. unfold ret. f_equal. apply world_eq; cbn; try reflexivity.
    by rewrite app_nil_r.
  - cbn [for_each]. unfold bind. rewrite write_level_eq.
    destruct (Hk level) as [ws E]; [by left|]. rewrite E.
    rewrite IH.
    + f_equal. apply world_eq; cbn; try reflexivity.
      rewrite <- app_assoc. reflexivity.
    + intros L HL. cbn. apply Hk. by right.
Qed.

Lemma init_lookup level :
  level ∈ all_levels -> words_by_level init_world !! level = Some ∅.
Proof.
  unfold all_levels. intros H.
  repeat (apply elem_of_cons in H as [->|H]; [vm_compute; reflexivity|]).
  by apply elem_of_nil in H.
Qed.

Lemma init_dom : dom (words_by_level init_world) = list_to_set all_levels.
Proof.
  unfold init_world, all_levels. cbn [words_by_level foldl].
  rewrite !dom_insert_L, dom_empty_L. cbn. set_solver.
Qed.

Lemma init_lookup_Some level S :
  words_by_level init_world !! level = Some S -> level ∈ all_levels ∧ S = ∅.
Proof.
  intros H. assert (Hd : level ∈ dom (words_by_level init_world))
    by (by apply elem_of_dom_2 in H).
  rewrite init_dom, elem_of_list_to_set in Hd. split; [exact Hd|].
  rewrite (init_lookup _ Hd) in H. congruence.
Qed.

Lemma level_inv_init : level_inv init_world.
Proof.
  split.
  - intros L1 L2 S1 S2 _ H1 _. apply init_lookup_Some in H1 as [_ ->]. set_solver.
  - intros L S H. apply init_lookup_Some in H as [_ ->]. set_solver.
Qed.

(** The run returns exactly when the loop over the documents does; it
    then prints the total and writes the six consolidated files. *)
Lemma run_eq ds :
  run ds init_world =
  match docs_loop ds init_world with
  | (Returned _, w1) =>
      (Returned tt,
       set_files (fun fs => fs ++ map (level_file (words_by_level w1)) all_levels)
         (add_lines [total_line (Z.of_nat (size (all_words w1)))] w1))
  | (Raised e, w1) => (Raised e, w1)
  | (OutOfFuel, w1) => (OutOfFuel, w1)
  end.
Proof.
  unfold run. unfold bind at 1.
  pose proof (docs_loop_any ds init_world level_inv_init) as (_ & _ & Hd & _).
  destruct (docs_loop ds init_world) as [[[]|e|] w1]; cbn [snd] in Hd; try reflexivity.
  unfold bind, gets, print, modify. 
  rewrite write_levels_eq; [reflexivity|].
  intros level Hl. cbn [words_by_level]. apply elem_of_dom.
  rewrite Hd, init_dom, elem_of_list_to_set. exact Hl.
Qed.

(** * The properties of the specification *)

(** ** Cells: which words are kept (C1, C8, C9) and what is written (C3) *)

Lemma append_rows_0 data f : append_rows 0 data f = f.
Proof. destruct f. unfold append_rows. cbn. by rewrite app_nil_r. Qed.

(** A cell that is not skipped returns when the lists indexed by [i]
    are long enough. *)
Lemma process_cell_returns outputs section subsection i text fr w o c ws :
  clean text ≠ [] -> outputs !! i = Some o ->
  counts fr !! i = Some c -> words_in_page_by_level fr !! i = Some ws ->
  let K := new_words text (all_words w) in
  process_cell outputs section subsection i text fr w =
  (Returned (Frame (<[i := (c + Z.of_nat (size K))%Z]> (counts fr))
                   (<[i := ws ∪ K]> (words_in_page_by_level fr))),
   set_files (alter (append_rows (size K) (row_line section subsection)) o)
     (set_all_words (all_words w ∪ K) w)).
Proof.
  intros Hne Ho Hc Hw. cbn zeta. rewrite process_cell_eq.
  rewrite bool_decide_eq_false_2 by exact Hne. cbn zeta.
  destruct (keep_words_new_words text (all_words w) Hne) as [-> ->].
  rewrite Ho, Hc, Hw.
  destruct (elements (new_words text (all_words w))) as [|x l] eqn:El; [|reflexivity].
  f_equal. apply world_eq; cbn; try reflexivity.
  apply elements_empty_iff, leibniz_equiv in El. rewrite El, size_empty.
  symmetry. apply list_alter_id. apply append_rows_0.
Qed.

Lemma keep_fold_within list_words all :
  (foldl keep_word (∅, all) list_words).1 ⊆ (foldl keep_word (∅, all) list_words).2.
Proof.
  destruct (keep_fold list_words ∅ all) as [_ H]; [set_solver|]. cbn zeta in H.
  rewrite H. set_solver.
Qed.

(** C1: in a cell that is processed, a token of the cleaned text is
    kept if and only if it equals its lowercased form and is not yet in
    the global vocabulary at that moment; the kept tokens are added to
    the global vocabulary and to the set of the cell, which joins the
    set of the level.  The tokens of "Casa, Árbol. Perro!!" are "Casa",
    "Árbol" and "Perro", and none of them is kept. *)
Theorem C1_token_kept_iff_lowercase_and_new
    outputs section subsection i text fr w :
  clean text ≠ [] ->
  let tokens := split SPACE (clean text) in
  let kept := keep_words tokens (all_words w) in
  let r := process_cell outputs section subsection i text fr w in
  (∀ word, word ∈ kept.1
           ↔ word ∈ tokens ∧ word = lower word ∧ word ∉ all_words w)
  ∧ (∀ pre word post, tokens = pre ++ word :: post ->
       let st := foldl keep_word (∅, all_words w) pre in
       (word = lower word ∧ word ∉ st.2 ->
          keep_word st word = ({[word]} ∪ st.1, {[word]} ∪ st.2)
          ∧ word ∉ st.1)
       ∧ (¬ (word = lower word ∧ word ∉ st.2) -> keep_word st word = st))
  ∧ all_words r.2 = all_words w ∪ kept.1
  ∧ (∀ fr', r.1 = Returned fr' ->
       ∃ ws, words_in_page_by_level fr !! i = Some ws
             ∧ words_in_page_by_level fr' !! i = Some (ws ∪ kept.1))
  ∧ clean (py "Casa, Árbol. Perro!!") = py "Casa Árbol Perro"
  ∧ split SPACE (clean (py "Casa, Árbol. Perro!!"))
    = [py "Casa"; py "Árbol"; py "Perro"]
  ∧ ∀ all, keep_words [py "Casa"; py "Árbol"; py "Perro"] all = (∅, all).
Proof.
  intros Hne tokens kept r.
  destruct (keep_words_new_words text (all_words w) Hne) as [E1 E2].
  fold tokens in E1, E2. fold kept in E1, E2.
  split; [apply keep_words_spec|]. split.
  { intros pre word post _ st.
    pose proof (keep_fold_within pre (all_words w)) as Hsub. fold st in Hsub.
    destruct st as [sw aw] eqn:Est. cbn [fst snd] in *.
    destruct (keep_word_cases sw aw word) as [(Hl & Hn & ->) | (Hno & ->)].
    - split; [intros _; split; [done | set_solver] | tauto].
    - split; [tauto | done]. }
  destruct (process_cell_spec outputs section subsection i text fr w)
    as (_ & _ & H3 & _ & _ & H6). fold r in H3, H6.
  split; [by rewrite E1|]. split.
  { intros fr' Hr.
    destruct (H6 fr' Hr) as [(Hc & _) | (_ & (c & ws & Hc & Hw & ->) & _)]; [done|].
    exists ws. split; [exact Hw|]. cbn [words_in_page_by_level].
    rewrite E1. apply list_lookup_insert_eq. by apply lookup_lt_Some in Hw. }
  split; [vm_compute; reflexivity|]. split; [vm_compute; reflexivity|].
  intros all. reflexivity.
Qed.

Lemma C1_witness :
  ∃ w, clean (py "hola Casa") ≠ []
       ∧ all_words (process_cell [0%nat] (py "S") (py "T") 0 (py "hola Casa")
                      (Frame [0%Z; 0%Z] [∅; ∅]) w).2
         = all_words w ∪ (keep_words (split SPACE (clean (py "hola Casa")))
                            (all_words w)).1.
Proof.
  exists (World ∅ ∅ [File (py "A1.csv") [] false] []).
  assert (Hne : clean (py "hola Casa") ≠ []) by (vm_compute; discriminate).
  split; [exact Hne|].
  exact (proj1 (proj2 (proj2
    (C1_token_kept_iff_lowercase_and_new [0%nat] (py "S") (py "T") 0
       (py "hola Casa") (Frame [0%Z; 0%Z] [∅; ∅])
       (World ∅ ∅ [File (py "A1.csv") [] false] []) Hne)))).
Defined.

Lemma hola_adios_tokens :
  split SPACE (clean (py "hola adiós hola")) = [py "hola"; py "adiós"; py "hola"].
Proof. vm_compute. reflexivity. Qed.

Lemma hola_adios_new all :
  py "hola" ∉ all -> py "adiós" ∉ all ->
  new_words (py "hola adiós hola") all = {[py "hola"; py "adiós"]}.
Proof.
  intros H1 H2. apply set_eq. intros x.
  unfold new_words, cell_tokens.
  rewrite bool_decide_eq_false_2 by (vm_compute; discriminate).
  rewrite hola_adios_tokens, elem_of_difference, elem_of_qualifying.
  rewrite !elem_of_cons, elem_of_nil, elem_of_union, !elem_of_singleton.
  split.
  - intros [[[->| [->| [->|[]]]] _] _]; tauto.
  - intros [->| ->]; (split; [split; [tauto | vm_compute; reflexivity] | done]).
Qed.

Lemma hola_adios_size : size ({[py "hola"; py "adiós"]} : gset str) = 2%nat.
Proof.
  rewrite size_union, !size_singleton; [reflexivity|].
  apply disjoint_singleton_l, not_elem_of_singleton.
  intros H. vm_compute in H. discriminate.
Qed.

(** C8: for the cell text "hola adiós hola", when neither word is in
    the global vocabulary yet, the tokens are "hola", "adiós", "hola";
    the set kept for the cell is {"hola", "adiós"}; both words enter the
    global vocabulary, and the count of the level grows by exactly 2. *)
Theorem C8_hola_adios_hola outputs section subsection i fr w o c ws :
  py "hola" ∉ all_words w -> py "adiós" ∉ all_words w ->
  outputs !! i = Some o -> counts fr !! i = Some c ->
  words_in_page_by_level fr !! i = Some ws ->
  let text := py "hola adiós hola" in
  split SPACE (clean text) = [py "hola"; py "adiós"; py "hola"]
  ∧ (keep_words (split SPACE (clean text)) (all_words w)).1
    = {[py "hola"; py "adiós"]}
  ∧ size ({[py "hola"; py "adiós"]} : gset str) = 2%nat
  ∧ ∃ fr' w',
      process_cell outputs section subsection i text fr w = (Returned fr', w')
      ∧ all_words w' = all_words w ∪ {[py "hola"; py "adiós"]}
      ∧ counts fr' !! i = Some (c + 2)%Z
      ∧ words_in_page_by_level fr' !! i = Some (ws ∪ {[py "hola"; py "adiós"]}).
Proof.
  intros H1 H2 Ho Hc Hw text.
  assert (Hne : clean text ≠ []) by (vm_compute; discriminate).
  split; [exact hola_adios_tokens|].
  destruct (keep_words_new_words text (all_words w) Hne) as [E1 _].
  split; [rewrite E1; by apply hola_adios_new|].
  split; [exact hola_adios_size|].
  pose proof (process_cell_returns outputs section subsection i text fr w o c ws
                Hne Ho Hc Hw) as Hp.
  cbn zeta in Hp. unfold text in Hp.
  rewrite (hola_adios_new _ H1 H2), hola_adios_size in Hp.
  eexists _, _. split; [exact Hp|].
  cbn [all_words set_files set_all_words counts words_in_page_by_level].
  split; [done|]. split.
  - apply list_lookup_insert_eq. by apply lookup_lt_Some in Hc.
  - apply list_lookup_insert_eq. by apply lookup_lt_Some in Hw.
Qed.

Lemma C8_witness :
  ∃ fr' w',
    process_cell [0%nat; 1%nat] (py "S") (py "T") 1 (py "hola adiós hola")
      (Frame [0%Z; 5%Z] [∅; ∅])
      (World ∅ ∅ [File (py "A1.csv") [] false; File (py "A2.csv") [] false] [])
    = (Returned fr', w')
    ∧ all_words w' = ∅ ∪ {[py "hola"; py "adiós"]}
    ∧ counts fr' !! 1%nat = Some (5 + 2)%Z
    ∧ words_in_page_by_level fr' !! 1%nat = Some (∅ ∪ {[py "hola"; py "adiós"]}).
Proof.
  apply (C8_hola_adios_hola [0%nat; 1%nat] (py "S") (py "T") 1
           (Frame [0%Z; 5%Z] [∅; ∅])
           (World ∅ ∅ [File (py "A1.csv") [] false; File (py "A2.csv") [] false] [])
           1%nat 5%Z ∅);
    [apply not_elem_of_empty | apply not_elem_of_empty
     | reflexivity | reflexivity | reflexivity].
Defined.

(** C9: a cell whose cleaned text is empty is skipped: the turn of the
    loop returns with the same locals and the same state, so no row is
    written, nothing enters the global vocabulary or the set of the
    level, and the count of the level does not change. *)
Theorem C9_empty_cell_skipped
    s outputs section subsection i cell cell1 fr w :
  find_next s cell "td" = Some cell1 ->
  clean (text_of s cell1) = [] ->
  process_cell outputs section subsection i (text_of s cell1) fr w
    = (Returned fr, w)
  ∧ cell_turn s outputs section subsection i cell fr w
    = (Returned (cell1, fr), w)
  ∧ new_words (text_of s cell1) (all_words w) = ∅
  ∧ let r := cell_turn s outputs section subsection i cell fr w in
    files r.2 = files w ∧ all_words r.2 = all_words w
    ∧ (∀ c fr', r.1 = Returned (c, fr') ->
         counts fr' = counts fr
         ∧ words_in_page_by_level fr' = words_in_page_by_level fr).
Proof.
  intros Hf Hc.
  assert (Hp : process_cell outputs section subsection i (text_of s cell1) fr w
               = (Returned fr, w)).
  { rewrite process_cell_eq. by rewrite bool_decide_eq_true_2. }
  assert (Ht : cell_turn s outputs section subsection i cell fr w
               = (Returned (cell1, fr), w)).
  { unfold cell_turn. rewrite Hf. unfold bind. rewrite Hp. reflexivity. }
  split; [exact Hp|]. split; [exact Ht|].
  split; [by apply new_words_skipped|].
  cbn zeta. rewrite Ht. cbn [fst snd]. split; [done|]. split; [done|].
  intros c fr' [= _ <-]. done.
Qed.

Lemma C9_witness :
  cell_turn page_digits [0%nat] (py "S") (py "T") 0 0 (Frame [0%Z; 0%Z] [∅; ∅])
    init_world
  = (Returned (1%nat, Frame [0%Z; 0%Z] [∅; ∅]), init_world).
Proof.
  apply (C9_empty_cell_skipped page_digits [0%nat] (py "S") (py "T") 0 0 1
           (Frame [0%Z; 0%Z] [∅; ∅]) init_world);
    vm_compute; reflexivity.
Defined.

Lemma row_of_walk s data : row_of (walk s) data -> heading_row s data.
Proof.
  intros (section & subsection & i & text & Hin & ->).
  apply walk_shape in Hin as [Hin|(n2 & n3 & j & c & H2 & H3 & Hin & _)];
    [discriminate|].
  injection Hin as -> -> _ _. exists n2, n3. done.
Qed.

(** The files that [parse] creates, whatever its outcome. *)
Lemma parse_outputs s page_number levels w h1 :
  find s "h1" = Some h1 ->
  ∃ new,
    files (parse s page_number levels w).2 = files w ++ new
    ∧ Forall2 (output_of s page_number (replace SPACE 95 (title_of s h1)))
        levels new
    ∧ Forall (fun f => closed f = false) new.
Proof.
  intros Hh.
  pose proof (parse_any s page_number levels w) as (_ & _ & _ & Hf).
  rewrite Hh in Hf. destruct Hf as (new & Hf & Hg).
  exists new. split; [exact Hf|].
  unfold new_outputs in Hg.
  change (map ?f levels) with (f <$> levels) in Hg.
  rewrite Forall2_fmap_l in Hg. split.
  - eapply Forall2_impl; [exact Hg|]. cbn.
    intros level f (Hn & _ & rows & Hw & Hr). split; [exact Hn|].
    exists rows. split; [exact Hw|].
    eapply Forall_impl; [exact Hr|]. apply row_of_walk.
  - apply Forall_forall. intros f Hin.
    apply list_elem_of_lookup in Hin as [k Hk].
    destruct (Forall2_lookup_r _ _ _ _ _ Hg Hk) as (level & _ & _ & Hc & _).
    exact Hc.
Qed.

(** C3: every row written to an output of a document has the fixed
    string "word" as its word field, not the token; its first two fields
    are the texts of the section heading and of the subsection heading;
    and a cell writes one such row per token of its kept set. *)
Theorem C3_rows_carry_literal_word
    outputs section subsection i text fr w o fr' w' :
  outputs !! i = Some o ->
  process_cell outputs section subsection i text fr w = (Returned fr', w') ->
  files w' = alter (append_rows (size (new_words text (all_words w)))
                      (row_line section subsection)) o (files w)
  ∧ (clean text ≠ [] ->
     new_words text (all_words w)
     = (keep_words (split SPACE (clean text)) (all_words w)).1)
  ∧ row_line section subsection
    = [QUOTE] ++ section ++ [QUOTE; 44; QUOTE] ++ subsection
      ++ [QUOTE; 44; QUOTE] ++ py "word" ++ [QUOTE; NEWLINE]
  ∧ (∀ s page_number levels w0 h1,
       find s "h1" = Some h1 ->
       ∃ new,
         files (parse s page_number levels w0).2 = files w0 ++ new
         ∧ Forall2 (output_of s page_number (replace SPACE 95 (title_of s h1)))
             levels new)
  ∧ process_cell [0%nat] (py "S") (py "T") 0 (py "hola") (Frame [0%Z; 0%Z] [∅; ∅])
      (World ∅ ∅ [File (py "A1.csv") [] false] [])
    = (Returned (Frame [1%Z; 0%Z] [{[py "hola"]}; ∅]),
       World {[py "hola"]} ∅
         [File (py "A1.csv")
            [[QUOTE; 83; QUOTE; 44; QUOTE; 84; QUOTE; 44; QUOTE;
              119; 111; 114; 100; QUOTE; NEWLINE]] false] []).
Proof.
  intros Ho Hp. split; [|split; [|split; [|split]]].
  2:{ intros Hne. symmetry. by apply keep_words_new_words. }
  - destruct (process_cell_spec outputs section subsection i text fr w)
      as (_ & _ & _ & _ & _ & H6).
    rewrite Hp in H6. cbn [fst snd] in H6.
    destruct (H6 fr' eq_refl)
      as [(Hc & _ & ->) | (_ & _ & [(HK & ->) | (o' & Ho' & _ & ->)])].
    + rewrite (new_words_skipped _ _ Hc), size_empty.
      symmetry. apply list_alter_id, append_rows_0.
    + rewrite HK, size_empty. symmetry. apply list_alter_id, append_rows_0.
    + congruence.
  - reflexivity.
  - intros s page_number levels w0 h1 Hh.
    destruct (parse_outputs s page_number levels w0 h1 Hh) as (new & H1 & H2 & _).
    exists new. done.
  - erewrite process_cell_returns;
      [|vm_compute; discriminate|reflexivity|reflexivity|reflexivity].
    assert (HK : new_words (py "hola") ∅ = {[py "hola"]}).
    { apply set_eq. intros x. unfold new_words, cell_tokens.
      rewrite bool_decide_eq_false_2 by (vm_compute; discriminate).
      rewrite elem_of_difference, elem_of_qualifying.
      replace (split SPACE (clean (py "hola"))) with [py "hola"]
        by (vm_compute; reflexivity).
      rewrite list_elem_of_singleton, elem_of_singleton. split.
      - intros [[-> _] _]. done.
      - intros ->. split; [split; [done | vm_compute; reflexivity]|set_solver]. }
    cbn [all_words]. rewrite HK, size_singleton. f_equal.
Qed.

Lemma C3_witness :
  files (World {[py "hola"]} ∅
           [File (py "A1.csv")
              [[QUOTE; 83; QUOTE; 44; QUOTE; 84; QUOTE; 44; QUOTE;
                119; 111; 114; 100; QUOTE; NEWLINE]] false] [])
  = alter (append_rows (size (new_words (py "hola") ∅)) (row_line (py "S") (py "T")))
      0%nat [File (py "A1.csv") [] false].
Proof.
  refine (proj1 (C3_rows_carry_literal_word [0%nat] (py "S") (py "T") 0 (py "hola")
                (Frame [0%Z; 0%Z] [∅; ∅])
                (World ∅ ∅ [File (py "A1.csv") [] false] [])
                0%nat (Frame [1%Z; 0%Z] [{[py "hola"]}; ∅])
                (World {[py "hola"]} ∅
                   [File (py "A1.csv")
                      [[QUOTE; 83; QUOTE; 44; QUOTE; 84; QUOTE; 44; QUOTE;
                        119; 111; 114; 100; QUOTE; NEWLINE]] false] [])
                eq_refl _)).
  vm_compute. reflexivity.
Defined.

(** ** Sections and their subsections (C2) *)






Lemma siblings_named s nm j k :
  siblings s nm -> named s nm j -> named s nm k ->
  parent <$> s !! k = parent <$> s !! j.
Proof.
  unfold siblings, named. intros Hs Hj Hk.
  destruct (s !! j) as [tj|] eqn:Ej; [|discriminate].
  destruct (s !! k) as [tk|] eqn:Ek; [|discriminate].
  cbn in *. injection Hj as Hj. injection Hk as Hk.
  rewrite Forall_forall in Hs.
  pose proof (Hs tk (list_elem_of_lookup_2 _ _ _ Ek)) as Hs'.
  rewrite Forall_forall in Hs'.
  rewrite (Hs' tj (list_elem_of_lookup_2 _ _ _ Ej) Hk Hj). reflexivity.
Qed.








(** ** The global vocabulary (C4, C5) *)

Lemma size_qualifying ws :
  size (qualifying ws)
  = length (remove_dups (filter (fun word => word = lower word) ws)).
Proof.
  unfold qualifying.
  rewrite <- (size_list_to_set (C := gset str) (remove_dups _))
    by apply NoDup_remove_dups.
  f_equal. apply set_eq. intros x.
  rewrite !elem_of_list_to_set, elem_of_remove_dups. done.
Qed.

(** C4: parsing a document again, with the global vocabulary as the
    first parse left it, returns empty sets, prints zero counts and
    leaves the vocabulary as it is.  After any sequence of parses from
    the empty vocabulary, the vocabulary is the set of the qualifying
    tokens met, so its size is the number of distinct ones. *)
Theorem C4_deduplication_idempotent s page_number levels w result w1 :
  parse s page_number levels w = (Returned result, w1) ->
  all_words w1 = all_words w ∪ qualifying (page_tokens s)
  ∧ (∃ w2 h1 l0 l1 rest,
       parse s page_number levels w1 = (Returned [∅; ∅], w2)
       ∧ all_words w2 = all_words w1
       ∧ find s "h1" = Some h1 ∧ levels = l0 :: l1 :: rest
       ∧ stdout w2 = stdout w1 ++
           [title_line page_number (title_of s h1);
            level_line l0 0; level_line l1 0])
  ∧ (∀ ds w',
       docs_loop ds init_world = (Returned tt, w') ->
       let seen := flat_map (fun d => page_tokens (page d)) ds in
       all_words w' = qualifying seen
       ∧ size (all_words w')
         = length (remove_dups (filter (fun word => word = lower word) seen))).
Proof.
  intros Hp.
  pose proof (parse_returned _ _ _ _ _ _ Hp)
    as (h1 & A & B & l0 & l1 & rest & _ & _ & _ & _ & _ & _ & Hq & _).
  split; [exact Hq|]. split.
  - destruct (parse_again s page_number levels w result w1 w1 Hp)
      as (w2 & h1' & l0' & l1' & rest' & H1 & H2 & _ & H4 & H5 & H6);
      [rewrite Hq; set_solver|].
    exists w2, h1', l0', l1', rest'. done.
  - intros ds w' Hd seen.
    apply docs_loop_returned in Hd as (Ha & _).
    assert (E : all_words w' = qualifying seen).
    { rewrite Ha. cbn. set_solver. }
    split; [exact E|]. rewrite E. apply size_qualifying.
Qed.

Lemma C4_witness :
  ∃ w2,
    parse page_flat 8 [py "A1"; py "A2"]
      (parse page_flat 8 [py "A1"; py "A2"] init_world).2
    = (Returned [∅; ∅], w2)
    ∧ all_words w2
      = all_words (parse page_flat 8 [py "A1"; py "A2"] init_world).2.
Proof.
  assert (H : parse page_flat 8 [py "A1"; py "A2"] init_world
              = (Returned [{[py "ahora"; py "hoy"; py "aquí"]};
                           {[py "tarde"; py "allí"]}],
                 (parse page_flat 8 [py "A1"; py "A2"] init_world).2)).
  { vm_compute. reflexivity. }
  destruct (C4_deduplication_idempotent _ _ _ _ _ _ H)
    as (_ & (w2 & h1 & l0 & l1 & rest & H1 & H2 & _) & _).
  exists w2. split; [exact H1 | exact H2].
Defined.

Lemma write_level_any level w :
  let r := write_level level w in
  all_words r.2 = all_words w ∧ words_by_level r.2 = words_by_level w
  ∧ stdout r.2 = stdout w ∧ r.1 ≠ OutOfFuel.
Proof.
  cbn zeta. rewrite write_level_eq.
  destruct (words_by_level w !! level); cbn; done.
Qed.

Lemma docs_loop_grows ds :
  ∀ w, all_words w ⊆ all_words (docs_loop ds w).2.
Proof.
  induction ds as [|d ds IH]; intros w; [done|].
  cbn [docs_loop]. unfold bind.
  pose proof (parse_any (page d) (section_number d) (levels_in_page d) w)
    as (_ & P2 & _).
  destruct (parse (page d) (section_number d) (levels_in_page d) w)
    as [[result|e|] w1]; cbn [fst snd] in *; [|done|done].
  pose proof (merge_level_any (levels_in_page d) result 0 w1) as (A1 & _).
  destruct (merge_level (levels_in_page d) result 0 w1) as [[[]|e|] w2];
    cbn [fst snd] in *; [|set_solver|set_solver].
  pose proof (merge_level_any (levels_in_page d) result 1 w2) as (B1 & _).
  destruct (merge_level (levels_in_page d) result 1 w2) as [[[]|e|] w3];
    cbn [fst snd] in *; [|set_solver|set_solver].
  specialize (IH w3). set_solver.
Qed.

Lemma for_each_write_level_words levels :
  ∀ w, all_words (for_each levels write_level w).2 = all_words w.
Proof.
  induction levels as [|level r IH]; intros w; [done|].
  cbn [for_each]. unfold bind.
  pose proof (write_level_any level w) as (W1 & _).
  destruct (write_level level w) as [[[]|e|] w1]; cbn [fst snd] in *;
    [rewrite IH|..]; done.
Qed.

Lemma run_grows ds w : all_words w ⊆ all_words (run ds w).2.
Proof.
  unfold run. unfold bind at 1.
  pose proof (docs_loop_grows ds w) as Hd.
  destruct (docs_loop ds w) as [[[]|e|] w1]; cbn [fst snd] in *; [|done|done].
  unfold bind, gets, print, modify.
  rewrite for_each_write_level_words. cbn. done.
Qed.

(** C5: the global vocabulary is empty when the run starts; every
    operation of the run leaves in it all the words it held, whatever
    the outcome; and membership is the equality of strings, so that a
    word that differs from a member by the case of a letter is not a
    member. *)
Theorem C5_vocabulary_grows_only :
  all_words init_world = ∅
  ∧ (∀ sw all word,
       all ⊆ (keep_word (sw, all) word).2
       ∧ ∀ x, x ∈ (keep_word (sw, all) word).2
              ↔ x ∈ all ∨ (x = word ∧ word = lower word))
  ∧ (∀ outputs section subsection i text fr w,
       all_words w ⊆ all_words (process_cell outputs section subsection i text fr w).2)
  ∧ (∀ s page_number levels w,
       all_words w ⊆ all_words (parse s page_number levels w).2)
  ∧ (∀ levels result i w,
       all_words (merge_level levels result i w).2 = all_words w)
  ∧ (∀ level w, all_words (write_level level w).2 = all_words w)
  ∧ (∀ ds w, all_words w ⊆ all_words (docs_loop ds w).2
             ∧ all_words w ⊆ all_words (run ds w).2)
  ∧ (keep_words [py "hola"] {[py "Hola"]}).1 = {[py "hola"]}
  ∧ (keep_words [py "hola"] {[py "hola"]}).1 = ∅.
Proof.
  split; [reflexivity|]. split.
  { intros sw all word.
    destruct (keep_word_cases sw all word) as [(Hl & Hn & ->) | (Hno & ->)];
      cbn [snd]; (split; [set_solver|]); intros x.
    - rewrite elem_of_union, elem_of_singleton. tauto.
    - split; [tauto|]. intros [?|[-> Hl]]; [done|].
      destruct (decide (word ∈ all)); tauto. }
  split.
  { intros outputs section subsection i text fr w.
    destruct (process_cell_spec outputs section subsection i text fr w)
      as (_ & _ & H3 & _). rewrite H3. set_solver. }
  split; [intros; apply parse_any|].
  split; [intros; apply merge_level_any|].
  split; [intros; apply write_level_any|].
  split; [intros ds w; split; [apply docs_loop_grows | apply run_grows]|].
  split; vm_compute; reflexivity.
Qed.

(** ** The files of a document are never closed (C7) *)

(** C7 asks that the two outputs of a document be closed when [parse]
    returns or raises.  [parse] has no [close()], no [with] and no
    [try]: whatever its outcome, it leaves the file objects that existed
    as they were, and every file object that it opened is still open,
    when it returns as well as when it raises. *)
Theorem C7_outputs_left_open s page_number levels w :
  (∃ new,
     files (parse s page_number levels w).2 = files w ++ new
     ∧ Forall (fun f => closed f = false) new
     ∧ length new = match find s "h1" with
                    | Some _ => length levels
                    | None => 0%nat
                    end)
  ∧ (parse page_flat 8 [py "A1"; py "A2"] init_world).1
    = Returned [{[py "ahora"; py "hoy"; py "aquí"]}; {[py "tarde"; py "allí"]}]
  ∧ map closed (files (parse page_flat 8 [py "A1"; py "A2"] init_world).2)
    = [false; false]
  ∧ (parse page_short_row 8 [py "A1"; py "A2"] init_world).1
    = Raised AttributeError
  ∧ map closed (files (parse page_short_row 8 [py "A1"; py "A2"] init_world).2)
    = [false; false].
Proof.
  split.
  - destruct (find s "h1") as [h1|] eqn:Hh.
    + destruct (parse_outputs s page_number levels w h1 Hh) as (new & H1 & H2 & H3).
      exists new. split; [exact H1|]. split; [exact H3|].
      symmetry. exact (Forall2_length _ _ _ H2).
    + exists []. pose proof (parse_any s page_number levels w) as (_ & _ & _ & Hf).
      rewrite Hh in Hf. rewrite Hf, app_nil_r. done.
  - repeat split; vm_compute; reflexivity.
Qed.

(** ** The consolidated files (C6) *)

Lemma split_no_sep sep w : sep ∉ w -> split sep w = [w].
Proof.
  induction w as [|c w IH]; intros Hn; [reflexivity|].
  apply not_elem_of_cons in Hn as [Hc Hw]. rewrite split_cons.
  rewrite (proj2 (N.eqb_neq c sep)) by congruence.
  rewrite (IH Hw). reflexivity.
Qed.

Lemma split_app_sep sep w rest :
  sep ∉ w -> split sep (w ++ sep :: rest) = w :: split sep rest.
Proof.
  induction w as [|c w IH]; intros Hn.
  - cbn [app]. rewrite split_cons, N.eqb_refl. reflexivity.
  - apply not_elem_of_cons in Hn as [Hc Hw]. cbn [app]. rewrite split_cons.
    rewrite (proj2 (N.eqb_neq c sep)) by congruence.
    rewrite (IH Hw). reflexivity.
Qed.

(** Words without a newline, joined by newlines, are the lines of the
    text. *)
Lemma split_join ws :
  ws ≠ [] -> Forall (fun w => NEWLINE ∉ w) ws ->
  split NEWLINE (join [NEWLINE] ws) = ws.
Proof.
  induction ws as [|w ws IH]; intros Hne Hall; [done|].
  inversion Hall as [|? ? Hw Hws]; subst.
  destruct ws as [|w' ws'].
  - cbn [join]. by apply split_no_sep.
  - change (join [NEWLINE] (w :: w' :: ws'))
      with (w ++ NEWLINE :: join [NEWLINE] (w' :: ws')).
    rewrite split_app_sep by exact Hw. f_equal. apply IH; done.
Qed.

Lemma page_tokens_letters s x :
  x ∈ page_tokens s -> x ≠ [] ∧ Forall letter x.
Proof.
  unfold page_tokens. intros (st & _ & Hx)%elem_of_flat_map.
  destruct st as [section subsection i text|]; cbn in Hx; [|by apply elem_of_nil in Hx].
  unfold cell_tokens in Hx. case_bool_decide as Hc; [by apply elem_of_nil in Hx|].
  by apply (tokens_letters text).
Qed.

Lemma parse_results_words ds :
  ∀ w d result,
    (d, result) ∈ parse_results ds w ->
    ∃ A B, result = [A; B] ∧ A ∪ B ⊆ qualifying (page_tokens (page d)).
Proof.
  induction ds as [|d0 ds IH]; intros w d result Hin; cbn in Hin;
    [by apply elem_of_nil in Hin|].
  destruct (doc_body d0 w) as [[res|e|] w1] eqn:Hb;
    try (by apply elem_of_nil in Hin).
  apply elem_of_cons in Hin as [[= -> ->]|Hin]; [|by eapply IH].
  apply doc_body_returned in Hb
    as (A & B & _ & _ & _ & _ & _ & -> & _ & _ & H0 & Hall & Hq & _).
  exists A, B. split; [done|]. set_solver.
Qed.

Lemma elem_of_level_union level rs x :
  x ∈ level_union level rs
  ↔ ∃ d result i R,
      (d, result) ∈ rs ∧ (i < 2)%nat ∧ levels_in_page d !! i = Some level
      ∧ result !! i = Some R ∧ x ∈ R.
Proof.
  unfold level_union. rewrite elem_of_union_list. split.
  - intros (X & HX & Hx). apply list_elem_of_fmap in HX as ([d result] & -> & Hin).
    unfold attributed in Hx. cbn [fst snd map] in Hx.
    apply elem_of_union_list in Hx as (Y & HY & Hx).
    apply elem_of_cons in HY as [->|HY];
      [|apply elem_of_cons in HY as [->|HY]; [|by apply elem_of_nil in HY]];
      case_bool_decide as Hl; try (by apply not_elem_of_empty in Hx);
      destruct (result !! _) as [R|] eqn:ER; cbn in Hx;
      try (by apply not_elem_of_empty in Hx).
    + exists d, result, 0%nat, R. repeat split; [done | lia | done..].
    + exists d, result, 1%nat, R. repeat split; [done | lia | done..].
  - intros (d & result & i & R & Hin & Hi & Hl & HR & Hx).
    exists (attributed level (d, result)). split.
    + change (map (attributed level) rs) with (attributed level <$> rs).
      apply list_elem_of_fmap. by exists (d, result).
    + unfold attributed. cbn [fst snd map]. apply elem_of_union_list.
      destruct i as [|[|i]]; [| |lia].
      * eexists. split; [by left|]. rewrite bool_decide_eq_true_2 by done.
        rewrite HR. done.
      * eexists. split; [right; by left|]. rewrite bool_decide_eq_true_2 by done.
        rewrite HR. done.
Qed.

Lemma level_union_letters level ds w x :
  x ∈ level_union level (parse_results ds w) -> x ≠ [] ∧ Forall letter x.
Proof.
  intros (d & result & i & R & Hin & Hi & _ & HR & Hx)%elem_of_level_union.
  apply parse_results_words in Hin as (A & B & -> & Hsub).
  apply (page_tokens_letters (page d)).
  assert (Hq : x ∈ qualifying (page_tokens (page d))).
  { destruct i as [|[|i]]; cbn in HR; simplify_eq; set_solver. }
  by apply elem_of_qualifying in Hq as [Hq _].
Qed.

(** C6: when the run returns, the file of each of the six levels holds
    the words of the union of the sets that [parse] returned for that
    level, each once, one per line, without a header, and nothing
    else. *)
Theorem C6_consolidated_files ds w' :
  run ds init_world = (Returned tt, w') ->
  ∃ w1,
    docs_loop ds init_world = (Returned tt, w1)
    ∧ files w' = files w1 ++ map (level_file (words_by_level w')) all_levels
    ∧ ∀ level, level ∈ all_levels ->
        let S := level_union level (parse_results ds init_world) in
        let f := level_file (words_by_level w') level in
        words_by_level w' !! level = Some S
        ∧ f = File (level_file_name level) [join [NEWLINE] (elements S)] true
        ∧ NoDup (elements S)
        ∧ (∀ x, x ∈ elements S
                ↔ ∃ d result i R,
                    (d, result) ∈ parse_results ds init_world
                    ∧ (i < 2)%nat ∧ levels_in_page d !! i = Some level
                    ∧ result !! i = Some R ∧ x ∈ R)
        ∧ (S ≠ ∅ -> split NEWLINE (content f) = elements S)
        ∧ (S = ∅ -> content f = []).
Proof.
  rewrite run_eq.
  destruct (docs_loop ds init_world) as [[[]|e|] w1] eqn:Hd; try discriminate.
  intros [= <-]. exists w1. split; [reflexivity|]. split; [reflexivity|].
  intros level Hl S f.
  apply docs_loop_returned in Hd as (_ & _ & H3).
  assert (HS : words_by_level w1 !! level = Some S).
  { rewrite (H3 level ∅ (init_lookup _ Hl)). f_equal. set_solver. }
  assert (Hf : f = File (level_file_name level) [join [NEWLINE] (elements S)] true).
  { unfold f, level_file. cbn [words_by_level set_files add_lines]. by rewrite HS. }
  split; [exact HS|]. split; [exact Hf|]. split; [apply NoDup_elements|].
  split; [intros x; rewrite elem_of_elements; apply elem_of_level_union|].
  rewrite Hf. unfold content. cbn [written concat]. rewrite app_nil_r. split.
  - intros Hne. apply split_join.
    + intros He. apply Hne. by apply leibniz_equiv, elements_empty_iff.
    + apply Forall_forall. intros x Hx Hnl. apply elem_of_elements in Hx.
      apply level_union_letters in Hx as [_ Hx].
      rewrite Forall_forall in Hx. by apply (letter_not_NEWLINE _ (Hx _ Hnl)).
  - intros ->. by rewrite elements_empty.
Qed.

(** ** The level sets partition the vocabulary (C10) *)

Lemma all_levels_NoDup : NoDup all_levels.
Proof. apply (bool_decide_unpack _). vm_compute. exact I. Qed.

Lemma size_levels (d : gmap str (gset str)) (ks : list str) :
  NoDup ks -> levels_disjoint d ->
  size (⋃ (map (fun level => default ∅ (d !! level)) ks))
  = sum_list (map (fun level => size (default ∅ (d !! level))) ks).
Proof.
  intros Hnd Hd. induction ks as [|k ks IH]; [apply size_empty|].
  apply NoDup_cons in Hnd as [Hk Hnd]. cbn [map sum_list_with sum_list].
  rewrite union_list_cons, size_union; [by rewrite IH|].
  intros x Hx Hu. apply elem_of_union_list in Hu as (X & HX & HxX).
  change (map ?f ks) with (f <$> ks) in HX.
  apply list_elem_of_fmap in HX as (k' & -> & Hk').
  destruct (d !! k) as [Sk|] eqn:Ek; [|by apply not_elem_of_empty in Hx].
  destruct (d !! k') as [Sk'|] eqn:Ek'; [|by apply not_elem_of_empty in HxX].
  cbn in Hx, HxX.
  assert (Hne : k ≠ k') by (intros ->; done).
  exact (Hd _ _ _ _ Hne Ek Ek' x Hx HxX).
Qed.

Lemma run_level_inv ds : level_inv (run ds init_world).2.
Proof.
  rewrite run_eq.
  pose proof (docs_loop_any ds init_world level_inv_init) as (H & _).
  destruct (docs_loop ds init_world) as [[[]|e|] w1]; cbn [snd] in *; try done.
Qed.

(** C10: at every point of the run the six level sets are pairwise
    disjoint and within the global vocabulary; when the run returns,
    their union is the global vocabulary, every word of the vocabulary
    is in the set of exactly one level, which is what the file of that
    level holds, and the total that is printed is the sum of the sizes
    of the six sets. *)
Theorem C10_levels_partition_vocabulary ds :
  level_inv init_world
  ∧ (∀ outputs l fr w, level_inv w -> level_inv (run_steps outputs l fr w).2)
  ∧ (∀ d w, level_inv w ->
       level_inv (parse (page d) (section_number d) (levels_in_page d) w).2
       ∧ ∀ result w1,
           parse (page d) (section_number d) (levels_in_page d) w
             = (Returned result, w1) ->
           level_inv (merge_level (levels_in_page d) result 0 w1).2
           ∧ level_inv (bind (merge_level (levels_in_page d) result 0)
                          (fun _ => merge_level (levels_in_page d) result 1) w1).2)
  ∧ level_inv (docs_loop ds init_world).2
  ∧ level_inv (run ds init_world).2
  ∧ (∀ w', run ds init_world = (Returned tt, w') ->
       (∀ x, x ∈ all_words w'
             ↔ ∃ level S, level ∈ all_levels
                          ∧ words_by_level w' !! level = Some S ∧ x ∈ S)
       ∧ (∀ x, x ∈ all_words w' ->
            ∃ level, level ∈ all_levels
                     ∧ x ∈ default ∅ (words_by_level w' !! level)
                     ∧ ∀ level', x ∈ default ∅ (words_by_level w' !! level') ->
                                 level' = level)
       ∧ (∃ fs, files w' = fs ++ map (level_file (words_by_level w')) all_levels)
       ∧ size (all_words w') = sum_sizes (words_by_level w')
       ∧ last (stdout w')
         = Some (total_line (Z.of_nat (sum_sizes (words_by_level w'))))).
Proof.
  split; [exact level_inv_init|]. split.
  { intros outputs l fr w Hinv.
    pose proof (run_steps_any outputs l fr w) as (H1 & _ & H3 & _).
    eapply level_inv_grow; eauto. }
  split; [intros d w; apply doc_points|].
  split; [apply docs_loop_any, level_inv_init|].
  split; [apply run_level_inv|].
  intros w' Hrun.
  pose proof (run_level_inv ds) as Hinv. rewrite Hrun in Hinv. cbn [snd] in Hinv.
  rewrite run_eq in Hrun.
  pose proof (docs_loop_any ds init_world level_inv_init) as (_ & _ & Hdom & _).
  destruct (docs_loop ds init_world) as [[[]|e|] w1] eqn:Hd; try discriminate.
  cbn [snd] in Hdom. injection Hrun as <-.
  apply docs_loop_returned in Hd as (_ & Hcov & _).
  assert (Hc : levels_cover (words_by_level w1) (all_words w1)).
  { apply Hcov. intros x Hx. by apply not_elem_of_empty in Hx. }
  destruct Hinv as [Hdis Hwit].
  cbn [all_words words_by_level set_files add_lines files stdout] in *.
  assert (Hmem : ∀ x, x ∈ all_words w1
             ↔ ∃ level S, level ∈ all_levels
                          ∧ words_by_level w1 !! level = Some S ∧ x ∈ S).
  { intros x. split.
    - intros Hx. destruct (Hc x Hx) as (level & S & HL & HS).
      exists level, S. split; [|done].
      apply elem_of_dom_2 in HL. rewrite Hdom, init_dom in HL.
      by apply elem_of_list_to_set in HL.
    - intros (level & S & _ & HL & HS). exact (Hwit _ _ HL x HS). }
  split; [exact Hmem|]. split.
  { intros x Hx. apply Hmem in Hx as (level & S & Hl & HL & HS).
    exists level. split; [exact Hl|]. split; [by rewrite HL|].
    intros level' Hx'.
    destruct (words_by_level w1 !! level') as [S'|] eqn:HL';
      [|by apply not_elem_of_empty in Hx'].
    cbn in Hx'. destruct (decide (level' = level)) as [|Hne]; [done|].
    exfalso. exact (Hdis _ _ _ _ Hne HL' HL x Hx' HS). }
  split; [by eexists|].
  assert (Hsize : size (all_words w1) = sum_sizes (words_by_level w1)).
  { unfold sum_sizes.
    rewrite <- (size_levels _ _ all_levels_NoDup Hdis). f_equal.
    apply set_eq. intros x. rewrite Hmem, elem_of_union_list. split.
    - intros (level & S & Hl & HL & HS). exists S. split; [|done].
      change (map ?f all_levels) with (f <$> all_levels).
      apply list_elem_of_fmap. exists level. by rewrite HL.
    - intros (X & HX & Hx).
      change (map ?f all_levels) with (f <$> all_levels) in HX.
      apply list_elem_of_fmap in HX as (level & -> & Hl).
      destruct (words_by_level w1 !! level) as [S|] eqn:HL;
        [|by apply not_elem_of_empty in Hx].
      by exists level, S. }
  split; [exact Hsize|].
  rewrite last_snoc, Hsize. reflexivity.
Qed.

(** ** The whole script on a small site *)

Lemma C6_witness :
  words_by_level (main (fun _ => page_flat)).2 !! py "A1"
  = Some (level_union (py "A1")
            (parse_results (docs (fun _ => page_flat)) init_world)).
Proof.
  assert (Hrun : run (docs (fun _ => page_flat)) init_world
                 = (Returned tt, (main (fun _ => page_flat)).2))
    by (vm_compute; reflexivity).
  destruct (C6_consolidated_files _ _ Hrun) as (w1 & _ & _ & H).
  apply (H (py "A1")). unfold all_levels. left.
Defined.

Lemma C10_witness :
  size (all_words (main (fun _ => page_flat)).2)
  = sum_sizes (words_by_level (main (fun _ => page_flat)).2).
Proof.
  assert (Hrun : run (docs (fun _ => page_flat)) init_world
                 = (Returned tt, (main (fun _ => page_flat)).2))
    by (vm_compute; reflexivity).
  destruct (C10_levels_partition_vocabulary (docs (fun _ => page_flat)))
    as (_ & _ & _ & _ & _ & H).
  destruct (H _ Hrun) as (_ & _ & _ & Hs & _).
  exact Hs.
Defined.

Example main_flat_total :
  last (stdout (main (fun _ => page_flat)).2) = Some (py "Total: 5 words").
Proof. vm_compute. reflexivity. Qed.

Example main_flat_A1 :
  content <$> files (main (fun _ => page_flat)).2 !! 12%nat
  = Some (join [NEWLINE] (elements ({[py "ahora"; py "hoy"; py "aquí"]} : gset str))).
Proof. vm_compute. reflexivity. Qed.

(** * Further properties of the code *)

(** ** Strings: [split], [join], [strip] and the cleaning of a cell *)

Lemma join_cons sep w ws :
  ws ≠ [] -> join sep (w :: ws) = w ++ sep ++ join sep ws.
Proof. destruct ws; [done | reflexivity]. Qed.

Lemma length_split sep s : length (split sep s) = S (count_char sep s).
Proof.
  unfold count_char. induction s as [|c r IH]; [reflexivity|].
  rewrite split_cons, filter_cons. destruct (c =? sep) eqn:E.
  - apply N.eqb_eq in E. rewrite decide_True by done. cbn. by rewrite IH.
  - apply N.eqb_neq in E. rewrite decide_False by done. cbn.
    rewrite <- IH. pose proof (split_not_nil sep r).
    destruct (split sep r); [done | reflexivity].
Qed.

Lemma join_split sep s : join [sep] (split sep s) = s.
Proof.
  induction s as [|c r IH]; [reflexivity|].
  rewrite split_cons. destruct (c =? sep) eqn:E.
  - apply N.eqb_eq in E. subst c.
    rewrite join_cons by apply split_not_nil. cbn. by rewrite IH.
  - rewrite (split_hd_tl sep r) in IH.
    destruct (tl (split sep r)) as [|w ws] eqn:Et.
    + cbn in IH |- *. by rewrite IH.
    + rewrite join_cons in IH by done. rewrite join_cons by done.
      cbn. cbn in IH. by rewrite IH.
Qed.

(** X1: [sep.join(s.split(sep))] gives [s] back; [split] cuts at every
    separator, so it returns one piece more than there are separators,
    and no piece contains the separator. *)
Theorem split_join_roundtrip sep s :
  join [sep] (split sep s) = s
  ∧ length (split sep s) = S (count_char sep s)
  ∧ Forall (fun w => sep ∉ w) (split sep s).
Proof.
  split; [apply join_split|split; [apply length_split|]].
  - apply Forall_forall. intros w Hw Hin.
    pose proof (split_chars _ _ _ Hw) as Hc. rewrite Forall_forall in Hc.
    destruct (Hc _ Hin) as [_ Hne]. done.
Qed.

(** X2: Conversely, splitting the join of pieces that hold no separator
    gives the pieces back, unless there is no piece at all: the join of
    no piece is the empty string, which splits into one empty piece. *)
Theorem join_split_roundtrip sep ws :
  Forall (fun w => sep ∉ w) ws ->
  (ws ≠ [] -> split sep (join [sep] ws) = ws)
  ∧ (ws = [] -> split sep (join [sep] ws) = [[]]).
Proof.
  intros Hall. split; [|by intros ->].
  induction ws as [|w ws IH]; intros Hne; [done|].
  inversion Hall as [|? ? Hw Hws]; subst.
  destruct ws as [|w' ws'].
  - cbn [join]. by apply split_no_sep.
  - change (join [sep] (w :: w' :: ws'))
      with (w ++ sep :: join [sep] (w' :: ws')).
    rewrite split_app_sep by exact Hw. f_equal. apply IH; done.
Qed.

Lemma join_split_roundtrip_witness :
  split 44 (join [44] [py "a"; py ""; py "bc"]) = [py "a"; py ""; py "bc"].
Proof.
  apply (join_split_roundtrip 44 [py "a"; py ""; py "bc"]); [|done].
  apply (bool_decide_unpack _). vm_compute. exact I.
Defined.

Lemma lstrip_fixed s :
  (∀ c, head s = Some c -> isspace c = false) -> lstrip s = s.
Proof.
  destruct s as [|c r]; [reflexivity|]. intros H. cbn [lstrip].
  by rewrite (H c eq_refl).
Qed.

Lemma strip_fixed s :
  (∀ c, head s = Some c -> isspace c = false) ->
  (∀ c, last s = Some c -> isspace c = false) ->
  strip s = s.
Proof.
  intros Hh Hl. unfold strip. rewrite (lstrip_fixed s Hh).
  rewrite lstrip_fixed; [apply reverse_involutive|].
  intros c Hc. rewrite head_reverse in Hc. by apply Hl.
Qed.

(** X3: [strip] removes whitespace from both ends and nothing else: the
    string is its stripped form between two runs of whitespace, the
    stripped form neither starts nor ends with whitespace, and stripping
    it again changes nothing. *)
Theorem strip_removes_outer_whitespace s :
  (∃ a b, s = a ++ strip s ++ b
          ∧ Forall (fun c => isspace c = true) a
          ∧ Forall (fun c => isspace c = true) b)
  ∧ (∀ c, head (strip s) = Some c -> isspace c = false)
  ∧ (∀ c, last (strip s) = Some c -> isspace c = false)
  ∧ strip (strip s) = strip s.
Proof.
  assert (Hdec : ∃ a b, s = a ++ strip s ++ b
          ∧ Forall (fun c => isspace c = true) a
          ∧ Forall (fun c => isspace c = true) b).
  { unfold strip.
    destruct (lstrip_spec s) as (a & Hs & Ha & _).
    destruct (lstrip_spec (reverse (lstrip s))) as (a' & Hr & Ha' & _).
    exists a, (reverse a'). split; [|split; [exact Ha | by apply Forall_reverse]].
    rewrite <- reverse_app, <- Hr, reverse_involutive. exact Hs. }
  destruct (strip_spec s) as (_ & _ & _ & Hh & Hl).
  split; [exact Hdec|]. split; [exact Hh|]. split; [exact Hl|].
  by apply strip_fixed.
Qed.

Lemma sub_non_spanish_fixed s :
  Forall (fun c => spanish_or_space c = true) s -> sub_non_spanish s = s.
Proof.
  unfold sub_non_spanish. induction 1 as [|c r Hc _ IH]; [reflexivity|].
  cbn. rewrite Hc. f_equal. exact IH.
Qed.

Lemma sub_spaces_fixed s : nodouble s = true -> sub_spaces s = s.
Proof.
  induction s as [|c r IH]; [reflexivity|]. intros Hn.
  destruct r as [|d r']; [reflexivity|].
  rewrite sub_spaces_cons2. cbn [nodouble] in Hn.
  apply andb_true_iff in Hn as [H1 H2]. apply negb_true_iff in H1.
  rewrite H1. f_equal. by apply IH.
Qed.

Lemma class_space c : spanish_or_space c = true -> isspace c = true -> c = SPACE.
Proof.
  intros Hc Hs. unfold isspace in Hs. unfold spanish_or_space in Hc.
  repeat (apply orb_true_iff in Hs as [Hs | Hs]);
    try (apply andb_true_iff in Hs as [H1 H2]; apply N.leb_le in H1, H2);
    try (apply N.eqb_eq in Hs; subst c; vm_compute in Hc; discriminate).
  - exfalso. assert (c = 9 ∨ c = 10 ∨ c = 11 ∨ c = 12 ∨ c = 13) as Hx by lia.
    destruct Hx as [->|[->|[->|[->| ->]]]]; vm_compute in Hc; discriminate.
  - assert (c = 28 ∨ c = 29 ∨ c = 30 ∨ c = 31 ∨ c = 32) as Hx by lia.
    destruct Hx as [->|[->|[->|[->| ->]]]]; try reflexivity;
      vm_compute in Hc; discriminate.
  - exfalso.
    repeat (apply orb_true_iff in Hc as [Hc | Hc]);
      try (apply andb_true_iff in Hc as [H3 H4]; apply N.leb_le in H3, H4; lia);
      try (apply N.eqb_eq in Hc; unfold SPACE in *; lia).
    + apply bool_decide_eq_true in Hc.
      repeat (apply elem_of_cons in Hc as [->|Hc]; [lia|]). by apply elem_of_nil in Hc.
    + apply bool_decide_eq_true in Hc.
      repeat (apply elem_of_cons in Hc as [->|Hc]; [lia|]). by apply elem_of_nil in Hc.
Qed.

(** X4: The cleaned text of a cell (lines 63-66) holds only letters of the
    class and single spaces, with no space at either end; cleaning it
    again changes nothing; and its words, joined by spaces, are the
    cleaned text. *)
Theorem clean_normal_form text :
  Forall (fun c => spanish_or_space c = true) (clean text)
  ∧ nodouble (clean text) = true
  ∧ head (clean text) ≠ Some SPACE
  ∧ last (clean text) ≠ Some SPACE
  ∧ clean (clean text) = clean text
  ∧ join [SPACE] (split SPACE (clean text)) = clean text.
Proof.
  destruct (clean_shape text) as (Hnd & Hh & Hl & Hcl).
  split; [exact Hcl|]. split; [exact Hnd|]. split; [exact Hh|]. split; [exact Hl|].
  split; [|apply join_split].
  unfold clean at 1. rewrite (sub_non_spanish_fixed _ Hcl), (sub_spaces_fixed _ Hnd).
  apply strip_fixed.
  - intros c Hc. destruct (isspace c) eqn:E; [|reflexivity].
    exfalso. apply Hh. rewrite Hc. f_equal. apply class_space; [|exact E].
    rewrite Forall_forall in Hcl. apply Hcl.
    destruct (clean text); [discriminate|]. injection Hc as ->. by left.
  - intros c Hc. destruct (isspace c) eqn:E; [|reflexivity].
    exfalso. apply Hl. rewrite Hc. f_equal. apply class_space; [|exact E].
    rewrite Forall_forall in Hcl. apply Hcl.
    apply last_Some in Hc as [l' ->]. apply elem_of_app. right. by left.
Qed.

(** ** The words of the vocabulary *)

Lemma letter_lower_fixed c : letter c -> lower_char c = c -> lowercase_letter c.
Proof.
  intros [Hc Hsp] Hl. unfold lower_char in Hl. unfold spanish_or_space in Hc.
  unfold lowercase_letter.
  repeat (apply orb_true_iff in Hc as [Hc | Hc]).
  - apply andb_true_iff in Hc as [H1 H2]. apply N.leb_le in H1, H2. left. lia.
  - rewrite Hc in Hl. cbn in Hl. lia.
  - apply bool_decide_eq_true in Hc. right.
    repeat (apply elem_of_cons in Hc as [->|Hc]; [set_solver|]).
    by apply elem_of_nil in Hc.
  - apply bool_decide_eq_true in Hc. exfalso.
    repeat (apply elem_of_cons in Hc as [->|Hc]; [vm_compute in Hl; discriminate|]).
    by apply elem_of_nil in Hc.
  - apply N.eqb_eq in Hc. subst c. right. set_solver.
  - apply N.eqb_eq in Hc. subst c. vm_compute in Hl. discriminate.
  - apply N.eqb_eq in Hc. done.
Qed.

Lemma map_fixed {A} (f : A -> A) (l : list A) :
  map f l = l -> Forall (fun x => f x = x) l.
Proof.
  induction l as [|x l IH]; [constructor|]. cbn. intros [= Hx Hl].
  constructor; [exact Hx | by apply IH].
Qed.

Lemma qualifying_page_lowercase s x :
  x ∈ qualifying (page_tokens s) -> lowercase_word x.
Proof.
  intros [Hin Hl]%elem_of_qualifying.
  destruct (page_tokens_letters s x Hin) as [Hne Hlet].
  split; [exact Hne|]. symmetry in Hl. apply map_fixed in Hl.
  rewrite Forall_forall in Hlet, Hl. apply Forall_forall. intros c Hc.
  apply letter_lower_fixed; [by apply Hlet | by apply Hl].
Qed.

Lemma run_steps_words outputs l :
  ∀ fr w,
    all_words (run_steps outputs l fr w).2
    ⊆ all_words w ∪ qualifying (flat_map step_tokens l).
Proof.
  induction l as [|st l IH]; intros fr w; [cbn; set_solver|].
  cbn [run_steps flat_map]. rewrite qualifying_app. unfold bind.
  assert (Hs : all_words (do_step outputs st fr w).2
               ⊆ all_words w ∪ qualifying (step_tokens st)).
  { destruct st as [section subsection i text|]; cbn [do_step step_tokens];
      [|cbn; set_solver].
    destruct (process_cell_spec outputs section subsection i text fr w)
      as (_ & _ & H3 & _). rewrite H3. unfold new_words. set_solver. }
  destruct (do_step outputs st fr w) as [[fr1|e|] w1]; cbn [fst snd] in *;
    [|set_solver|set_solver].
  specialize (IH fr1 w1). set_solver.
Qed.

Lemma parse_words s page_number levels w :
  all_words (parse s page_number levels w).2
  ⊆ all_words w ∪ qualifying (page_tokens s).
Proof.
  rewrite parse_eq. destruct (find s "h1") as [h1|]; [|cbn; set_solver].
  set (w0 := set_files _ w). set (outputs := seq _ _). set (fr0 := Frame _ _).
  pose proof (run_steps_words outputs (walk s) fr0 w0) as Hw.
  unfold bind.
  destruct (run_steps outputs (walk s) fr0 w0) as [[fr|e|] w1] eqn:Er;
    cbn [fst snd] in *; [|exact Hw|exact Hw].
  assert (Hinv : page_inv (all_words w) w1 fr).
  { eapply run_steps_page_inv; [|exact Er].
    apply page_inv_set_files, page_inv_init. }
  destruct Hinv as (A & B & _ & Hc & _).
  destruct (report_any page_number (title_of s h1) levels fr _ _ w1 Hc)
    as (R1 & _). rewrite R1. exact Hw.
Qed.

Lemma docs_loop_words ds :
  ∀ w,
    all_words (docs_loop ds w).2
    ⊆ all_words w ∪ qualifying (flat_map (fun d => page_tokens (page d)) ds).
Proof.
  induction ds as [|d ds IH]; intros w; [cbn; set_solver|].
  cbn [docs_loop flat_map]. rewrite qualifying_app. unfold bind.
  pose proof (parse_words (page d) (section_number d) (levels_in_page d) w) as P.
  destruct (parse (page d) (section_number d) (levels_in_page d) w)
    as [[result|e|] w1]; cbn [fst snd] in *; [|set_solver|set_solver].
  pose proof (merge_level_any (levels_in_page d) result 0 w1) as (A1 & _).
  destruct (merge_level (levels_in_page d) result 0 w1) as [[[]|e|] w2];
    cbn [fst snd] in *; [|set_solver|set_solver].
  pose proof (merge_level_any (levels_in_page d) result 1 w2) as (B1 & _).
  destruct (merge_level (levels_in_page d) result 1 w2) as [[[]|e|] w3];
    cbn [fst snd] in *; [|set_solver|set_solver].
  specialize (IH w3). set_solver.
Qed.

Lemma run_words ds w :
  all_words (run ds w).2
  ⊆ all_words w ∪ qualifying (flat_map (fun d => page_tokens (page d)) ds).
Proof.
  unfold run. unfold bind at 1.
  pose proof (docs_loop_words ds w) as Hd.
  destruct (docs_loop ds w) as [[[]|e|] w1]; cbn [fst snd] in *;
    [|exact Hd|exact Hd].
  unfold bind, gets, print, modify.
  rewrite for_each_write_level_words. cbn. exact Hd.
Qed.

(** X5: Whatever the pages hold and however the run ends, every word of
    the global vocabulary, and so every word of a level set, is a
    non-empty string of the lowercase letters a-z, á, é, í, ó, ú, ñ:
    no digit, space, punctuation or capital ever enters it. *)
Theorem vocabulary_lowercase_words ds :
  (∀ x, x ∈ all_words (run ds init_world).2 -> lowercase_word x)
  ∧ (∀ level S y, words_by_level (run ds init_world).2 !! level = Some S ->
                  y ∈ S -> lowercase_word y).
Proof.
  assert (Hall : ∀ y, y ∈ all_words (run ds init_world).2 -> lowercase_word y).
  { intros y Hy. apply (run_words ds init_world) in Hy.
    apply elem_of_union in Hy as [Hy|Hy]; [by apply not_elem_of_empty in Hy|].
    apply elem_of_qualifying in Hy as [Hin Hl].
    apply elem_of_flat_map in Hin as (d & _ & Hin).
    apply (qualifying_page_lowercase (page d)). by apply elem_of_qualifying. }
  split; [exact Hall|].
  intros level S y HL Hy. apply Hall.
  destruct (run_level_inv ds) as [_ Hw]. exact (Hw _ _ HL y Hy).
Qed.

Lemma vocabulary_lowercase_words_witness : lowercase_word (py "aquí").
Proof.
  apply (proj1 (vocabulary_lowercase_words (docs (fun _ => page_flat))) (py "aquí")).
  vm_compute. reflexivity.
Defined.

(** ** Rows and their cells (lines 57-62) *)

Lemma find_all_next_cons s n nm j rest :
  find_all_next s n nm = j :: rest ->
  (n < j < length s)%nat ∧ named s nm j ∧ find_all_next s j nm = rest.
Proof.
  unfold find_all_next, after. intros Hf.
  apply filter_seq_head in Hf as (Hj & HP & ->).
  split; [lia|]. split; [exact HP|].
  replace (S n + (length s - S n) - S j)%nat with (length s - S j)%nat by lia.
  reflexivity.
Qed.

Lemma row_steps_eq s section subsection row :
  row_steps s section subsection row
  = match find_all_next s row "td" with
    | c0 :: c1 :: _ =>
        [Cell section subsection 0 (text_of s c0);
         Cell section subsection 1 (text_of s c1)]
    | [c0] => [Cell section subsection 0 (text_of s c0); NoCell]
    | [] => [NoCell]
    end.
Proof.
  unfold row_steps, find_next.
  destruct (find_all_next s row "td") as [|c0 rest] eqn:E0; [reflexivity|].
  apply find_all_next_cons in E0 as (_ & _ & E1). cbn [head]. rewrite E1.
  destruct rest as [|c1 rest']; reflexivity.
Qed.

Lemma row_steps_NoCell s section subsection row :
  NoCell ∈ row_steps s section subsection row
  ↔ (length (find_all_next s row "td") < 2)%nat.
Proof.
  rewrite row_steps_eq.
  destruct (find_all_next s row "td") as [|c0 [|c1 rest]]; cbn [length].
  - split; [lia | intros _; by left].
  - split; [lia | intros _; right; by left].
  - split; [|lia]. intros H.
    repeat (apply elem_of_cons in H as [H|H]; [discriminate|]).
    by apply elem_of_nil in H.
Qed.

(** X6: The two cells read for a row are the first two [td] tags that
    follow the row tag in the document, whether or not they lie inside
    the row; when fewer than two [td] tags follow, the turn that lacks
    one raises [AttributeError], after the turn before it was carried
    out. *)
Theorem row_cells_are_next_two_td s outputs section subsection row fr w :
  row_steps s section subsection row
  = match find_all_next s row "td" with
    | c0 :: c1 :: _ =>
        [Cell section subsection 0 (text_of s c0);
         Cell section subsection 1 (text_of s c1)]
    | [c0] => [Cell section subsection 0 (text_of s c0); NoCell]
    | [] => [NoCell]
    end
  ∧ row_body s outputs section subsection row fr w
    = run_steps outputs (row_steps s section subsection row) fr w
  ∧ (NoCell ∈ row_steps s section subsection row
     ↔ (length (find_all_next s row "td") < 2)%nat).
Proof.
  split; [apply row_steps_eq|].
  split; [apply row_body_steps | apply row_steps_NoCell].
Qed.



(** ** When [parse] returns, and what it returns *)







Lemma rows_inv_step fs0 n all0 st fr w fr' w' :
  page_inv all0 w fr -> rows_inv fs0 w fr ->
  do_step (seq (length fs0) n) st fr w = (Returned fr', w') ->
  rows_inv fs0 w' fr'.
Proof.
  intros (A' & B' & Hw' & _ & _ & _ & Hall) (A & B & f0 & f1 & more & Hw & Hf & L0 & L1 & Hm) Hs.
  rewrite Hw in Hw'. injection Hw' as <- <-.
  destruct st as [section subsection i text|]; [|discriminate].
  cbn [do_step] in Hs.
  destruct (process_cell_spec (seq (length fs0) n) section subsection i text fr w)
    as (_ & _ & _ & _ & _ & H6).
  rewrite Hs in H6. cbn [fst snd] in H6.
  destruct (H6 fr' eq_refl) as [(_ & -> & ->) | (_ & (c & ws & _ & Hwi & ->) & Hfiles)].
  { by exists A, B, f0, f1, more. }
  set (K := new_words text (all_words w)) in *.
  assert (HK : K ## all_words w) by (unfold K, new_words; set_solver).
  rewrite Hw in Hwi. rewrite Hw. cbn [words_in_page_by_level].
  destruct i as [|[|i]]; cbn in Hwi; [| |discriminate]; injection Hwi as <-.
  - exists (A ∪ K), B. cbn [insert list_insert].
    destruct Hfiles as [(HKe & ->) | (o & Ho & _ & ->)].
    + exists f0, f1, more. rewrite HKe.
      replace (A ∪ ∅) with A by set_solver. done.
    + apply lookup_seq in Ho as [-> _]. rewrite Hf, alter_app_r. cbn.
      eexists _, f1, more. split; [done|]. split; [done|].
      split; [|done]. cbn. rewrite length_app, length_replicate, L0.
      rewrite size_union by (rewrite Hall in HK; set_solver). lia.
  - exists A, (B ∪ K). cbn [insert list_insert].
    destruct Hfiles as [(HKe & ->) | (o & Ho & _ & ->)].
    + exists f0, f1, more. rewrite HKe.
      replace (B ∪ ∅) with B by set_solver. done.
    + apply lookup_seq in Ho as [-> _]. rewrite Hf, alter_app_r. cbn.
      eexists f0, _, more. split; [done|]. split; [done|].
      split; [done|]. split; [|done]. cbn.
      rewrite length_app, length_replicate, L1.
      rewrite size_union by (rewrite Hall in HK; set_solver). lia.
Qed.

Lemma run_steps_rows_inv fs0 n all0 l fr w fr' w' :
  page_inv all0 w fr -> rows_inv fs0 w fr ->
  run_steps (seq (length fs0) n) l fr w = (Returned fr', w') ->
  rows_inv fs0 w' fr'.
Proof.
  intros Hp Hr Hrun.
  apply (run_steps_inv (seq (length fs0) n)
           (fun w fr => page_inv all0 w fr ∧ rows_inv fs0 w fr) l)
    with (fr := fr) (w := w) (fr' := fr') (w' := w'); [|done|done].
  intros st fr1 w1 fr2 w2 _ [H1 H2] Hs. split.
  - eapply page_inv_step; eauto.
  - eapply rows_inv_step; eauto.
Qed.

(** X8: When [parse] returns, it returns two disjoint sets of words that
    were not in the vocabulary, which together are the qualifying words
    of the page that were not in it; the vocabulary has grown by them;
    the count printed for each level is the size of its set; and the
    file of each level holds the header row followed by as many rows as
    its set has words. *)
Theorem parse_counts_rows_and_sets s page_number levels w result w1 :
  parse s page_number levels w = (Returned result, w1) ->
  ∃ h1 A B l0 l1 rest f0 f1 more,
    find s "h1" = Some h1 ∧ levels = l0 :: l1 :: rest ∧ result = [A; B]
    ∧ A ## B
    ∧ A ∪ B = qualifying (page_tokens s) ∖ all_words w
    ∧ all_words w1 = all_words w ∪ A ∪ B
    ∧ words_by_level w1 = words_by_level w
    ∧ stdout w1 = stdout w ++
        [title_line page_number (title_of s h1);
         level_line l0 (Z.of_nat (size A)); level_line l1 (Z.of_nat (size B))]
    ∧ files w1 = files w ++ f0 :: f1 :: more
    ∧ length (written f0) = S (size A) ∧ head (written f0) = Some header_line
    ∧ length (written f1) = S (size B) ∧ head (written f1) = Some header_line
    ∧ Forall (fun f => written f = [header_line]) more.
Proof.
  intros Hp.
  pose proof (parse_any s page_number levels w) as (Hwbl & _ & _ & Hfiles).
  rewrite Hp in Hwbl. cbn [snd] in Hwbl.
  pose proof (parse_returned _ _ _ _ _ _ Hp)
    as (h1 & A & B & l0 & l1 & rest & Hh & Hl & Hres & HAB & H0 & Hall & Hq & _ & Hout).
  rewrite Hh, Hp in Hfiles. cbn [snd] in Hfiles.
  destruct Hfiles as (new & Hf & Hg).
  subst levels result.
  rewrite parse_eq, Hh in Hp.
  apply bind_returned in Hp as (fr & w2 & Er & Hrep).
  assert (Hinv : page_inv (all_words w) w2 fr).
  { eapply run_steps_page_inv; [|exact Er].
    apply page_inv_set_files, page_inv_init. }
  assert (Hrows : rows_inv (files w) w2 fr).
  { eapply run_steps_rows_inv; [| |exact Er].
    - apply page_inv_set_files, page_inv_init.
    - exists ∅, ∅. eexists _, _, _. cbn.
      split; [done|]. split; [done|]. rewrite size_empty.
      split; [done|]. split; [done|].
      apply Forall_forall. intros f Hin.
      change (map ?g rest) with (g <$> rest) in Hin.
      by apply list_elem_of_fmap in Hin as (level & -> & _). }
  destruct Hinv as (A' & B' & Hw' & Hc & _).
  rewrite (report_eq _ _ _ _ _ _ _ Hc) in Hrep. injection Hrep as Hres <-.
  destruct Hrows as (A2 & B2 & f0 & f1 & more & Hw2 & Hf2 & L0 & L1 & Hm).
  rewrite Hw2 in Hres. injection Hres as -> ->.
  unfold add_lines in Hf. cbn [files] in Hf. rewrite Hf2 in Hf.
  apply app_inv_head in Hf. subst new.
  exists h1, A, B, l0, l1, rest, f0, f1, more.
  unfold add_lines. cbn [files].
  split; [done|]. split; [done|]. split; [done|]. split; [done|].
  split; [rewrite Hq in Hall; set_solver|].
  split; [done|]. split; [done|]. split; [done|]. split; [done|].
  unfold new_outputs in Hg. cbn [map] in Hg.
  apply Forall2_cons_inv_l in Hg as (g0 & new' & G0 & Hg & Hnew).
  apply Forall2_cons_inv_l in Hg as (g1 & new'' & G1 & Hg & Hnew').
  subst new'. injection Hnew as <- <- <-.
  destruct G0 as (_ & _ & r0 & W0 & _). destruct G1 as (_ & _ & r1 & W1 & _).
  cbn in W0, W1. rewrite W0, W1 in *. done.
Qed.

(** ** The title and the names of the files (lines 35-41) *)

Lemma split_head_prefix sep s :
  ∃ rest, s = hd [] (split sep s) ++ rest ∧ (rest = [] ∨ head rest = Some sep).
Proof.
  pose proof (join_split sep s) as Hj. rewrite (split_hd_tl sep s) in Hj.
  destruct (tl (split sep s)) as [|w ws].
  - exists []. cbn in Hj. rewrite app_nil_r. split; [done | by left].
  - rewrite join_cons in Hj by done. eexists. split; [symmetry; exact Hj|].
    right. reflexivity.
Qed.

Lemma replace_spec a b s :
  a ≠ b -> (a ∉ replace a b s) ∧ length (replace a b s) = length s.
Proof.
  intros Hab. unfold replace. split; [|apply length_map].
  intros Hin. change (map ?f s) with (f <$> s) in Hin.
  apply list_elem_of_fmap in Hin as (c & Hc & _).
  destruct (c =? a) eqn:E; [congruence|]. apply N.eqb_neq in E. congruence.
Qed.

(** X9: The title is the stripped text of the first [h1] up to its first
    period: it holds no period, and the stripped text continues, if at
    all, with a period.  The token used in file names has the length of
    the title and no space.  For "Nociones generales. Inventario A1-A2"
    the title is "Nociones generales" and the file of level A1 of page 8
    is "A1_8_Nociones_generales.csv". *)
Theorem title_up_to_first_period s h1 :
  (46 ∉ title_of s h1)
  ∧ (∃ rest, strip (text_of s h1) = title_of s h1 ++ rest
             ∧ (rest = [] ∨ head rest = Some 46))
  ∧ (SPACE ∉ replace SPACE 95 (title_of s h1))
  ∧ length (replace SPACE 95 (title_of s h1)) = length (title_of s h1)
  ∧ title_of [Tag "h1" 1 None (py "Nociones generales. Inventario A1-A2")] 0
    = py "Nociones generales"
  ∧ output_name 8 (replace SPACE 95 (py "Nociones generales")) (py "A1")
    = py "A1_8_Nociones_generales.csv".
Proof.
  split; [|split; [apply split_head_prefix|split; [|split]]].
  - unfold title_of. intros Hin.
    pose proof (split_hd_tl 46 (strip (text_of s h1))) as Hs.
    assert (Hw : hd [] (split 46 (strip (text_of s h1)))
                 ∈ split 46 (strip (text_of s h1))) by (rewrite Hs at 2; by left).
    pose proof (split_chars _ _ _ Hw) as Hc. rewrite Forall_forall in Hc.
    by destruct (Hc _ Hin).
  - by apply replace_spec.
  - by apply replace_spec.
  - split; vm_compute; reflexivity.
Qed.

(** ** Pages without sections *)




(** ** The sections and the rows that are visited (lines 44-57, 84) *)

Lemma filter_seq_NoDup (P : nat -> Prop) `{∀ x, Decision (P x)} a len :
  NoDup (filter P (seq a len)).
Proof. apply NoDup_filter, NoDup_seq. Qed.

Lemma chain_NoDup s nm cur : NoDup (chain s nm cur).
Proof.
  destruct cur as [n|]; cbn; [|constructor].
  apply NoDup_cons. split; [|apply filter_seq_NoDup].
  intros Hin. apply list_elem_of_filter in Hin as [_ Hin].
  apply after_elem in Hin. lia.
Qed.

Lemma chain_siblings_first s nm :
  siblings s nm -> chain s nm (find s nm) = find_all s nm.
Proof.
  intros Hs. unfold find.
  destruct (find_all s nm) as [|j rest] eqn:E; [reflexivity|].
  cbn [head chain]. f_equal.
  unfold find_all in E. apply filter_seq_head in E as (Hj & Hn & ->).
  unfold find_next_siblings, after.
  replace (0 + length s - S j)%nat with (length s - S j)%nat by lia.
  apply list_filter_iff. intros k. unfold sibling_named. split; [tauto|].
  intros Hk. split; [exact Hk|]. by apply (siblings_named s nm).
Qed.

(** X11: [parse] processes the first [h2] of the page and, after it, the
    later [h2] tags that have the same parent, in document order and
    each once; an [h2] elsewhere in the tree is never a section.  When
    all the [h2] tags of the page are siblings, every one of them is
    processed. *)
Theorem sections_are_sibling_h2 s outputs fr w :
  sections_loop (S (length s)) s outputs (find s "h2") fr w
  = run_steps outputs (flat_map (section_steps s) (sections s)) fr w
  ∧ sections s
    = match find s "h2" with
      | None => []
      | Some first => first :: filter (sibling_named s first "h2") (after s first)
      end
  ∧ NoDup (sections s)
  ∧ Forall (named s "h2") (sections s)
  ∧ (siblings s "h2" -> sections s = find_all s "h2").
Proof.
  split; [apply sections_loop_walk|]. split; [reflexivity|].
  split; [apply chain_NoDup|]. split.
  - apply Forall_forall. intros n2. apply chain_named. intros n. apply find_named.
  - apply chain_siblings_first.
Qed.

Lemma take_while_NoDup {A} (p : A -> bool) l : NoDup l -> NoDup (take_while p l).
Proof.
  induction 1 as [|x l Hx Hl IH]; cbn; [constructor|].
  destruct (p x); [|constructor]. apply NoDup_cons. split; [|exact IH].
  intros Hin. by apply elem_of_take_while in Hin as [Hin _].
Qed.

(** X12: The rows visited for a subsection heading are [tr] tags after it:
    the first one in the document and later ones with the same parent,
    each once, all on a source line before that of the next sibling
    [h3]; the loop of line 57 runs over exactly these. *)
Theorem rows_of_subsection s outputs section n3 fr w :
  rows_loop (S (length s)) s outputs section (strip (text_of s n3))
    (find_next s n3 "tr") (find_next_sibling s n3 "h3") fr w
  = run_steps outputs (subsection_steps s section n3) fr w
  ∧ NoDup (rows_of s n3)
  ∧ ∀ r, r ∈ rows_of s n3 ->
      named s "tr" r ∧ (n3 < r < length s)%nat
      ∧ (∃ first, find_next s n3 "tr" = Some first
                  ∧ (r = first ∨ sibling_named s first "tr" r))
      ∧ ∀ m, find_next_sibling s n3 "h3" = Some m ->
             (line_of s r < line_of s m)%Z.
Proof.
  split; [|split].
  - unfold subsection_steps, rows_of. apply rows_loop_steps.
    intros r Hr. apply find_next_lt in Hr. lia.
  - apply take_while_NoDup, chain_NoDup.
  - intros r Hr. apply elem_of_take_while in Hr as [Hin Hb].
    split; [eapply chain_named; [|exact Hin]; intros n; apply find_next_named|].
    split; [by apply chain_after in Hin|]. split.
    + destruct (find_next s n3 "tr") as [first|]; cbn in Hin;
        [|by apply elem_of_nil in Hin].
      exists first. split; [done|].
      apply elem_of_cons in Hin as [->|Hin]; [by left|]. right.
      by apply list_elem_of_filter in Hin as [Hin _].
    + intros m Hm. rewrite Hm in Hb. cbn in Hb. by apply Z.ltb_lt.
Qed.

(** ** The run as a whole (lines 101-114) *)








Lemma doc_body_stdout d w result w1 :
  doc_body d w = (Returned result, w1) ->
  stdout w1 = stdout w ++ doc_lines (d, result).
Proof.
  unfold doc_body. intros (res & w2 & Hp & H)%bind_returned.
  apply bind_returned in H as ([] & w3 & Hm0 & H).
  apply bind_returned in H as ([] & w4 & Hm1 & H).
  injection H as <- <-.
  pose proof (merge_level_any (levels_in_page d) res 0 w2) as (_ & _ & S0 & _).
  pose proof (merge_level_any (levels_in_page d) res 1 w3) as (_ & _ & S1 & _).
  rewrite Hm0 in S0. rewrite Hm1 in S1. cbn [snd] in S0, S1.
  apply parse_returned in Hp
    as (h1 & A & B & l0 & l1 & rest & Hh & Hl & -> & _ & _ & _ & _ & _ & Hout).
  unfold doc_lines. cbn [fst snd]. rewrite Hh, Hl, S1, S0. exact Hout.
Qed.

Lemma docs_loop_stdout ds :
  ∀ w w',
    docs_loop ds w = (Returned tt, w') ->
    stdout w' = stdout w ++ flat_map doc_lines (parse_results ds w)
    ∧ length (parse_results ds w) = length ds.
Proof.
  induction ds as [|d ds IH]; intros w w' Hrun.
  - cbn in Hrun. injection Hrun as <-. cbn. by rewrite app_nil_r.
  - rewrite docs_loop_cons in Hrun.
    apply bind_returned in Hrun as (result & w1 & Hb & Hrun).
    cbn [parse_results]. rewrite Hb. cbn [flat_map length].
    destruct (IH _ _ Hrun) as [I1 I2].
    rewrite I1, (doc_body_stdout _ _ _ _ Hb), <- app_assoc, I2. done.
Qed.

Lemma doc_lines_length d w result w1 :
  doc_body d w = (Returned result, w1) -> length (doc_lines (d, result)) = 3%nat.
Proof.
  unfold doc_body. intros (res & w2 & Hp & H)%bind_returned.
  apply bind_returned in H as ([] & w3 & _ & H).
  apply bind_returned in H as ([] & w4 & _ & H).
  injection H as <- <-.
  apply parse_returned in Hp
    as (h1 & A & B & l0 & l1 & rest & Hh & Hl & -> & _).
  unfold doc_lines. cbn [fst snd]. by rewrite Hh, Hl.
Qed.

Lemma parse_results_lines ds :
  ∀ w, length (flat_map doc_lines (parse_results ds w))
       = (3 * length (parse_results ds w))%nat.
Proof.
  induction ds as [|d ds IH]; intros w; [reflexivity|].
  cbn [parse_results].
  destruct (doc_body d w) as [[result|e|] w1] eqn:Hb; try reflexivity.
  cbn [flat_map length]. rewrite length_app, IH, (doc_lines_length _ _ _ _ Hb). lia.
Qed.

(** X14: When the run returns, the console holds, for each document in
    turn, its title line and the two count lines of its levels, each
    count being the size of the set returned for the level, and then the
    total line, whose number is the size of the vocabulary: three lines
    per document and one more. *)
Theorem run_console_output ds w' :
  run ds init_world = (Returned tt, w') ->
  stdout w'
  = flat_map doc_lines (parse_results ds init_world)
    ++ [total_line (Z.of_nat (size (all_words w')))]
  ∧ length (stdout w') = (3 * length ds + 1)%nat.
Proof.
  rewrite run_eq.
  destruct (docs_loop ds init_world) as [[[]|e|] w1] eqn:Hd; try discriminate.
  intros [= <-]. apply docs_loop_stdout in Hd as [H1 H2].
  cbn [stdout all_words set_files add_lines]. rewrite H1. cbn [stdout init_world app].
  split; [done|]. rewrite length_app, parse_results_lines, H2. cbn. lia.
Qed.

(** X15: A document whose first level is not one of the six makes the run
    raise [KeyError] once its page has been parsed: the words of the
    page are then in the global vocabulary, but in no level set. *)
Theorem unknown_level_raises_KeyError d ds result w1 l0 rest :
  parse (page d) (section_number d) (levels_in_page d) init_world
    = (Returned result, w1) ->
  levels_in_page d = l0 :: rest -> l0 ∉ all_levels ->
  run (d :: ds) init_world = (Raised KeyError, w1)
  ∧ all_words w1 = qualifying (page_tokens (page d))
  ∧ ∀ level S, words_by_level w1 !! level = Some S -> S = ∅.
Proof.
  intros Hp Hl Hn.
  pose proof (parse_any (page d) (section_number d) (levels_in_page d) init_world)
    as (Hwbl & _). rewrite Hp in Hwbl. cbn [snd] in Hwbl.
  assert (E0 : words_by_level w1 !! l0 = None).
  { rewrite Hwbl. apply not_elem_of_dom. rewrite init_dom.
    by rewrite elem_of_list_to_set. }
  split; [|split].
  - unfold run. cbn [docs_loop]. unfold bind at 1. unfold bind at 1. rewrite Hp.
    unfold bind at 1. rewrite merge_level_eq, Hl. cbn [lookup list_lookup].
    by rewrite E0.
  - apply parse_returned in Hp
      as (_ & _ & _ & _ & _ & _ & _ & _ & _ & _ & _ & _ & Hq & _).
    rewrite Hq. cbn. set_solver.
  - intros level S HL. rewrite Hwbl in HL. by apply init_lookup_Some in HL as [_ ->].
Qed.

(** ** Further behaviour of a cell (lines 71-83) *)

(** X16: The words kept for a cell depend on which words the cell holds,
    not on their order or on how often they occur. *)
Theorem keep_words_order_irrelevant ws ws' all :
  (∀ x, x ∈ ws ↔ x ∈ ws') -> keep_words ws all = keep_words ws' all.
Proof.
  intros Hsame.
  destruct (keep_words_spec ws all) as [H1 H2].
  destruct (keep_words_spec ws' all) as [H1' H2'].
  assert (E : (keep_words ws all).1 = (keep_words ws' all).1).
  { apply set_eq. intros x. rewrite H1, H1', Hsame. done. }
  destruct (keep_words ws all) as [a b], (keep_words ws' all) as [a' b'].
  cbn [fst snd] in *. congruence.
Qed.

Lemma keep_words_order_irrelevant_witness :
  keep_words [py "hola"; py "adiós"; py "hola"] ∅
  = keep_words [py "adiós"; py "hola"] ∅.
Proof.
  apply keep_words_order_irrelevant. intros x.
  rewrite !elem_of_cons, !elem_of_nil. tauto.
Defined.

(** X17: When [outputs] has no entry for the level of a cell, the cell
    raises [IndexError] only if it keeps a word, and then the kept words
    are already in the global vocabulary; a cell that keeps nothing
    returns and changes nothing. *)
Theorem process_cell_missing_output
    outputs section subsection i text fr w c ws :
  outputs !! i = None -> clean text ≠ [] ->
  counts fr !! i = Some c -> words_in_page_by_level fr !! i = Some ws ->
  let K := new_words text (all_words w) in
  (K ≠ ∅ ->
   process_cell outputs section subsection i text fr w
   = (Raised IndexError, set_all_words (all_words w ∪ K) w))
  ∧ (K = ∅ ->
     process_cell outputs section subsection i text fr w = (Returned fr, w)).
Proof.
  intros Ho Hne Hc Hw K. rewrite process_cell_eq.
  rewrite bool_decide_eq_false_2 by exact Hne. cbn zeta.
  destruct (keep_words_new_words text (all_words w) Hne) as [-> ->].
  fold K. rewrite Ho, Hc, Hw. split.
  - intros HK. destruct (elements K) as [|x l] eqn:El; [|reflexivity].
    exfalso. apply HK. by apply leibniz_equiv, elements_empty_iff.
  - intros HK. rewrite HK, elements_empty, size_empty. f_equal.
    + destruct fr as [cs wps]. cbn in *. f_equal.
      rewrite Z.add_0_r. replace (ws ∪ ∅) with ws by set_solver.
      rewrite (list_insert_id cs i c Hc), (list_insert_id wps i ws Hw). done.
    + apply world_eq; cbn; try done. set_solver.
Qed.

Lemma process_cell_missing_output_witness :
  process_cell [0%nat] (py "S") (py "T") 1 (py "hola") (Frame [0%Z; 0%Z] [∅; ∅])
    (World ∅ ∅ [File (py "A1.csv") [] false] [])
  = (Raised IndexError,
     set_all_words (∅ ∪ new_words (py "hola") ∅)
       (World ∅ ∅ [File (py "A1.csv") [] false] [])).
Proof.
  refine (proj1 (process_cell_missing_output [0%nat] (py "S") (py "T") 1 (py "hola")
                   (Frame [0%Z; 0%Z] [∅; ∅])
                   (World ∅ ∅ [File (py "A1.csv") [] false] [])
                   0%Z ∅ eq_refl _ eq_refl eq_refl) _).
  - vm_compute. discriminate.
  - vm_compute. discriminate.
Defined.

(** ** The level keys and the printed counts *)

Lemma run_dom ds : dom (words_by_level (run ds init_world).2) = list_to_set all_levels.
Proof.
  rewrite run_eq.
  pose proof (docs_loop_any ds init_world level_inv_init) as (_ & _ & Hd & _).
  rewrite init_dom in Hd.
  destruct (docs_loop ds init_world) as [[[]|e|] w1]; cbn [snd] in *; done.
Qed.

(** X18: [words_by_level] starts with the six levels as keys, each with the
    empty set, and the run never adds or removes a key, whatever the
    documents and however it ends. *)
Theorem level_keys_fixed ds :
  dom (words_by_level init_world) = list_to_set all_levels
  ∧ (∀ level S, words_by_level init_world !! level = Some S -> S = ∅)
  ∧ dom (words_by_level (docs_loop ds init_world).2) = list_to_set all_levels
  ∧ dom (words_by_level (run ds init_world).2) = list_to_set all_levels.
Proof.
  split; [apply init_dom|]. split.
  - intros level S H. by apply init_lookup_Some in H as [_ ->].
  - split; [|apply run_dom].
    pose proof (docs_loop_any ds init_world level_inv_init) as (_ & _ & Hd & _).
    by rewrite Hd, init_dom.
Qed.


Lemma parse_counts_rows_and_sets_witness :
  ∃ A B, (parse page_flat 8 [py "A1"; py "A2"] init_world).1 = Returned [A; B]
         ∧ A ## B.
Proof.
  assert (H : parse page_flat 8 [py "A1"; py "A2"] init_world
              = (Returned [{[py "ahora"; py "hoy"; py "aquí"]};
                           {[py "tarde"; py "allí"]}],
                 (parse page_flat 8 [py "A1"; py "A2"] init_world).2))
    by (vm_compute; reflexivity).
  destruct (parse_counts_rows_and_sets _ _ _ _ _ _ H)
    as (h1 & A & B & l0 & l1 & rest & f0 & f1 & more & _ & _ & Hr & HAB & _).
  exists A, B. rewrite H. cbn [fst]. split; [by rewrite Hr | exact HAB].
Defined.

Lemma run_console_output_witness :
  length (stdout (main (fun _ => page_flat)).2) = 19%nat.
Proof.
  assert (Hrun : run (docs (fun _ => page_flat)) init_world
                 = (Returned tt, (main (fun _ => page_flat)).2))
    by (vm_compute; reflexivity).
  exact (proj2 (run_console_output _ _ Hrun)).
Defined.

Lemma unknown_level_raises_KeyError_witness :
  (run [doc_unknown_level] init_world).1 = Raised KeyError.
Proof.
  assert (Hp : parse (page doc_unknown_level) (section_number doc_unknown_level)
                 (levels_in_page doc_unknown_level) init_world
               = (Returned [{[py "ahora"; py "hoy"; py "aquí"]};
                            {[py "tarde"; py "allí"]}],
                  (parse page_flat 8 [py "D1"; py "D2"] init_world).2))
    by (vm_compute; reflexivity).
  assert (Hn : py "D1" ∉ all_levels).
  { apply (bool_decide_unpack _). vm_compute. exact I. }
  rewrite (proj1 (unknown_level_raises_KeyError doc_unknown_level [] _ _
                    (py "D1") [py "D2"] Hp eq_refl Hn)).
  reflexivity.
Defined.

